(** * githubapi: a shallow embedding of [lib/githubapi.py]

    The module is a thin client over a REST API.  Every function of the
    source is embedded under its own name.  The services of the Python
    standard library that the module calls ([urllib.parse.quote],
    [urllib.parse.urlencode], [json.dumps], [str] on [bytes], [bool] and
    [int], [dict.copy], [dict.update]) are embedded from their documented
    behaviour; the network ([urllib.request.urlopen]) and the JSON decoder
    ([json.load]) are parameters of the development.

    Strings.  A Python [str] is modelled by a Rocq [string] whose
    characters are the code points U+0000 .. U+00FF; a Python [bytes] by a
    Rocq [string] whose characters are the bytes. *)

From Stdlib Require Import Bool Arith NArith ZArith Lia List Ascii String.
From Stdlib Require Import DecimalString.
Import ListNotations.

Local Open Scope list_scope.
Local Open Scope string_scope.

(** ** Python values *)

Definition str := string.
Definition bytes := string.

(** [Union[bool, str]], the values of a parameter mapping. *)
Inductive pyval : Type :=
| VBool (b : bool)
| VStr (s : str).

(** [str(v)] for a [bool] or a [str]. *)
Definition str_of_pyval (v : pyval) : str :=
  match v with
  | VBool true => "True"
  | VBool false => "False"
  | VStr s => s
  end.

(** [str(n)] for a non-negative [int]. *)
Definition str_of_int (n : nat) : str :=
  NilEmpty.string_of_uint (Nat.to_uint n).

(** ** Python dictionaries

    A [dict] keeps its keys in insertion order, and both [urlencode] and
    [json.dumps] walk it in that order: a dictionary is the list of its
    items.  Assigning to a key that is present keeps its position;
    assigning to a new key appends. *)

Definition dict (V : Type) : Type := list (str * V).

Fixpoint dict_get {V} (d : dict V) (k : str) : option V :=
  match d with
  | [] => None
  | (k', v) :: d' => if String.eqb k' k then Some v else dict_get d' k
  end.

(** [d[k] = v] *)
Fixpoint dict_set {V} (d : dict V) (k : str) (v : V) : dict V :=
  match d with
  | [] => [(k, v)]
  | (k', v') :: d' =>
      if String.eqb k' k then (k', v) :: d' else (k', v') :: dict_set d' k v
  end.

(** [bool(d)]: a dictionary is true when it has an item. *)
Definition dict_truthy {V} (d : dict V) : bool :=
  match d with
  | [] => false
  | _ :: _ => true
  end.

Definition dict_keys {V} (d : dict V) : list str := map fst d.

(** The dictionaries Python can build have no repeated key. *)
Definition dict_wf {V} (d : dict V) : Prop := NoDup (dict_keys d).

(** [dict(pairs)]: later pairs override earlier ones. *)
Definition dict_of_pairs {V} (l : list (str * V)) : dict V :=
  fold_left (fun d kv => dict_set d (fst kv) (snd kv)) l [].

(** ** Characters and hexadecimal *)

(** The double quote, U+0022. *)
Definition dquote : ascii := "034"%char.

Definition code (c : ascii) : N := N_of_ascii c.

Definition in_range (lo hi : N) (c : ascii) : bool :=
  (N.leb lo (code c) && N.leb (code c) hi)%bool.

Definition is_upper (c : ascii) : bool := in_range 65 90 c.
Definition is_lower (c : ascii) : bool := in_range 97 122 c.
Definition is_digit (c : ascii) : bool := in_range 48 57 c.

Fixpoint str_mem (c : ascii) (s : string) : bool :=
  match s with
  | EmptyString => false
  | String c' s' => (Ascii.eqb c' c || str_mem c s')%bool
  end.

(** [s1.join(l)] is [String.concat]; [flat_map] over the characters. *)
Fixpoint str_flat_map (f : ascii -> string) (s : string) : string :=
  match s with
  | EmptyString => EmptyString
  | String c s' => f c ++ str_flat_map f s'
  end.

Definition hex_digit (upper : bool) (n : N) : ascii :=
  if N.ltb n 10 then ascii_of_N (48 + n)
  else ascii_of_N ((if upper then 55 else 87) + n).

(** Two hexadecimal digits of a byte: [{:02X}] and [{:02x}]. *)
Definition hex2 (upper : bool) (c : ascii) : string :=
  String (hex_digit upper (N.div (code c) 16))
    (String (hex_digit upper (N.modulo (code c) 16)) EmptyString).

(** [s.encode("utf-8")] on code points below U+0100. *)
Definition utf8_char (c : ascii) : bytes :=
  if N.ltb (code c) 128 then String c EmptyString
  else String (ascii_of_N (192 + N.div (code c) 64))
         (String (ascii_of_N (128 + N.modulo (code c) 64)) EmptyString).

Definition utf8 (s : str) : bytes := str_flat_map utf8_char s.

(** The texts [bytes(s, "ascii")] accepts. *)
Fixpoint is_ascii (s : string) : bool :=
  match s with
  | EmptyString => true
  | String c s' => (N.ltb (code c) 128 && is_ascii s')%bool
  end.

(** Case analysis over the 256 characters. *)
Ltac each_char c := destruct c as [[] [] [] [] [] [] [] []].

(** ** urllib.parse *)

(** [_ALWAYS_SAFE]: the unreserved characters of RFC 3986 (the tilde
    is among them since Python 3.7). *)
Definition always_safe (c : ascii) : bool :=
  (is_upper c || is_lower c || is_digit c || str_mem c "_.-~")%bool.

(** The quoter of [quote_from_bytes]: a byte of [_ALWAYS_SAFE] or of
    [safe] stands for itself, any other byte becomes [%XX]. *)
Definition quoter (safe : string) (b : ascii) : string :=
  if (always_safe b || str_mem b safe)%bool then String b EmptyString
  else String "%" (hex2 true b).

Definition quote_from_bytes (bs : bytes) (safe : string) : str :=
  str_flat_map (quoter safe) bs.

(** [urllib.parse.quote(string, safe)]. *)
Definition quote_safe (s : str) (safe : string) : str :=
  quote_from_bytes (utf8 s) safe.

(** [urllib.parse.quote(string)]: [safe] defaults to ["/"]. *)
Definition quote (s : str) : str := quote_safe s "/".

(** [s.replace(" ", "+")] *)
Definition replace_space_plus (s : str) : str :=
  str_flat_map (fun c => String (if Ascii.eqb c " " then "+"%char else c) EmptyString) s.

(** [urllib.parse.quote_plus(string)] with an empty [safe], the [quote_via] of
    [urlencode]. *)
Definition quote_plus (s : str) : str :=
  if str_mem " " s then replace_space_plus (quote_safe s " ")
  else quote_safe s EmptyString.

(** [urllib.parse.urlencode(query)] for a dictionary: the items
    [quote_plus(str(k)) + "=" + quote_plus(str(v))] joined by ["&"]. *)
Definition urlencode (query : dict pyval) : str :=
  String.concat "&"
    (map (fun kv => quote_plus (fst kv) ++ "=" ++ quote_plus (str_of_pyval (snd kv)))
       query).

(** ** json.dumps

    [json.dumps(d, separators=(",", ":"))] with the default
    [ensure_ascii=True]: inside a string, the printable ASCII characters
    other than the quote and the backslash stand for themselves; the
    backspace, form feed, newline, carriage return and tab have a short
    escape; every other character is written [\u00xx]. *)

Definition json_escape_char (c : ascii) : string :=
  if (Ascii.eqb c dquote || Ascii.eqb c "\")%bool then String "\" (String c EmptyString)
  else if in_range 32 126 c then String c EmptyString
  else if N.eqb (code c) 8 then "\b"
  else if N.eqb (code c) 12 then "\f"
  else if N.eqb (code c) 10 then "\n"
  else if N.eqb (code c) 13 then "\r"
  else if N.eqb (code c) 9 then "\t"
  else "\u00" ++ hex2 false c.

Definition json_string (s : str) : string :=
  String dquote (str_flat_map json_escape_char s ++ String dquote EmptyString).

Definition json_value (v : pyval) : string :=
  match v with
  | VBool true => "true"
  | VBool false => "false"
  | VStr s => json_string s
  end.

Definition json_member (kv : str * pyval) : string :=
  json_string (fst kv) ++ ":" ++ json_value (snd kv).

Definition json_dumps (d : dict pyval) : str :=
  "{" ++ String.concat "," (map json_member d) ++ "}".

(** [bytes(s, "ascii")]: [UnicodeEncodeError] ([None]) on a character
    above U+007F. *)
Fixpoint bytes_ascii (s : str) : option bytes :=
  match s with
  | EmptyString => Some EmptyString
  | String c s' =>
      if N.ltb (code c) 128 then option_map (String c) (bytes_ascii s')
      else None
  end.

(** ** str(bytes)

    [str(b)] on a [bytes] object is its [repr]: the letter [b], a quote,
    the escaped bytes, the quote.  The quote is the double quote only
    when the bytes hold a single quote and no double quote. *)

Definition repr_quote (b : bytes) : ascii :=
  if (str_mem "'" b && negb (str_mem dquote b))%bool then dquote else "'"%char.

Definition repr_byte (q : ascii) (c : ascii) : string :=
  if (Ascii.eqb c q || Ascii.eqb c "\")%bool then String "\" (String c EmptyString)
  else if N.eqb (code c) 9 then "\t"
  else if N.eqb (code c) 10 then "\n"
  else if N.eqb (code c) 13 then "\r"
  else if in_range 32 126 c then String c EmptyString
  else "\x" ++ hex2 false c.

Definition str_of_bytes (b : bytes) : str :=
  String "b" (String (repr_quote b)
    (str_flat_map (repr_byte (repr_quote b)) b ++ String (repr_quote b) EmptyString)).

(** ** Reading a JSON object back

    The decoder used to say what a request body denotes: it reads the
    JSON text of an object whose values are strings and booleans, and
    builds the dictionary as [json.loads] does (a repeated key keeps its
    first position and its last value). *)

Definition unhex (c : ascii) : option N :=
  if is_digit c then Some (code c - 48)%N
  else if in_range 97 102 c then Some (code c - 87)%N
  else if in_range 65 70 c then Some (code c - 55)%N
  else None.

Definition unhex4 (a b c d : ascii) : option ascii :=
  match unhex a, unhex b, unhex c, unhex d with
  | Some x, Some y, Some z, Some w =>
      let n := (x * 4096 + y * 256 + z * 16 + w)%N in
      if N.ltb n 256 then Some (ascii_of_N n) else None
  | _, _, _, _ => None
  end.

Definition unescape_short (e : ascii) : option ascii :=
  if Ascii.eqb e dquote then Some dquote
  else if Ascii.eqb e "\" then Some "\"%char
  else if Ascii.eqb e "/" then Some "/"%char
  else if Ascii.eqb e "b" then Some (ascii_of_N 8)
  else if Ascii.eqb e "f" then Some (ascii_of_N 12)
  else if Ascii.eqb e "n" then Some (ascii_of_N 10)
  else if Ascii.eqb e "r" then Some (ascii_of_N 13)
  else if Ascii.eqb e "t" then Some (ascii_of_N 9)
  else None.

Definition cons_fst (c : ascii) (r : option (string * string)) : option (string * string) :=
  match r with
  | Some (s, rest) => Some (String c s, rest)
  | None => None
  end.

(** The characters of a JSON string after its opening quote, up to the
    closing quote; returns the string and what follows it. *)
Fixpoint scan_string (s : string) : option (str * string) :=
  match s with
  | EmptyString => None
  | String c s1 =>
      if Ascii.eqb c dquote then Some (EmptyString, s1)
      else if Ascii.eqb c "\" then
        match s1 with
        | EmptyString => None
        | String e s2 =>
            if Ascii.eqb e "u" then
              match s2 with
              | String h1 (String h2 (String h3 (String h4 s6))) =>
                  match unhex4 h1 h2 h3 h4 with
                  | Some x => cons_fst x (scan_string s6)
                  | None => None
                  end
              | _ => None
              end
            else
              match unescape_short e with
              | Some x => cons_fst x (scan_string s2)
              | None => None
              end
        end
      else if N.ltb (code c) 32 then None
      else cons_fst c (scan_string s1)
  end.

Fixpoint strip_prefix (p s : string) : option string :=
  match p, s with
  | EmptyString, _ => Some s
  | String a p', String b s' => if Ascii.eqb a b then strip_prefix p' s' else None
  | String _ _, EmptyString => None
  end.

Definition scan_value (s : string) : option (pyval * string) :=
  match s with
  | String c s1 =>
      if Ascii.eqb c dquote then
        match scan_string s1 with
        | Some (x, rest) => Some (VStr x, rest)
        | None => None
        end
      else
        match strip_prefix "true" s, strip_prefix "false" s with
        | Some rest, _ => Some (VBool true, rest)
        | None, Some rest => Some (VBool false, rest)
        | None, None => None
        end
  | EmptyString => None
  end.

(** One member: a key string, a colon, a value. *)
Definition scan_member (s : string) : option ((str * pyval) * string) :=
  match s with
  | String c s1 =>
      if Ascii.eqb c dquote then
        match scan_string s1 with
        | Some (k, String colon s2) =>
            if Ascii.eqb colon ":" then
              match scan_value s2 with
              | Some (v, rest) => Some ((k, v), rest)
              | None => None
              end
            else None
        | _ => None
        end
      else None
  | EmptyString => None
  end.

(** The members after the first, each behind a comma, up to the closing
    brace, which must end the text. *)
Fixpoint scan_members (fuel : nat) (s : string) : option (list (str * pyval)) :=
  match fuel with
  | O => None
  | S fuel' =>
      match s with
      | String c s1 =>
          if Ascii.eqb c "}" then
            match s1 with EmptyString => Some [] | _ => None end
          else if Ascii.eqb c "," then
            match scan_member s1 with
            | Some (kv, rest) => option_map (cons kv) (scan_members fuel' rest)
            | None => None
            end
          else None
      | EmptyString => None
      end
  end.

Definition json_loads (s : string) : option (dict pyval) :=
  match s with
  | String c s1 =>
      if Ascii.eqb c "{" then
        match s1 with
        | String c1 s2 =>
            if Ascii.eqb c1 "}" then
              match s2 with EmptyString => Some [] | _ => None end
            else
              match scan_member s1 with
              | Some (kv, rest) =>
                  option_map (fun l => dict_of_pairs (kv :: l))
                    (scan_members (length s) rest)
              | None => None
              end
        | EmptyString => None
        end
      else None
  | EmptyString => None
  end.

(** What follows the first member in [json.dumps]: each further member
    behind a comma, then the end of the text. *)
Fixpoint str_tail (l : list (str * pyval)) (rest : string) : string :=
  match l with
  | [] => rest
  | kv :: l' => "," ++ json_member kv ++ str_tail l' rest
  end.

(** ** Reading a query string back

    The decoder used to say what a query string denotes: the items
    between [&], each a key and a value around [=], with [+] for a
    space and [%XX] for a byte. *)

Fixpoint unquote_plus (s : string) : option bytes :=
  match s with
  | EmptyString => Some EmptyString
  | String c s1 =>
      if Ascii.eqb c "%" then
        match s1 with
        | String h1 (String h2 s3) =>
            match unhex h1, unhex h2 with
            | Some x, Some y =>
                option_map (String (ascii_of_N (x * 16 + y))) (unquote_plus s3)
            | _, _ => None
            end
        | _ => None
        end
      else if Ascii.eqb c "+" then option_map (String " ") (unquote_plus s1)
      else option_map (String c) (unquote_plus s1)
  end.

(** [s.split(sep)] for a separator of one character. *)
Fixpoint split_on (sep : ascii) (s : string) : list string :=
  match s with
  | EmptyString => [EmptyString]
  | String c s' =>
      if Ascii.eqb c sep then EmptyString :: split_on sep s'
      else
        match split_on sep s' with
        | x :: l => String c x :: l
        | [] => [String c EmptyString]
        end
  end.

Definition parse_item (item : string) : option (bytes * bytes) :=
  match split_on "=" item with
  | [k; v] =>
      match unquote_plus k, unquote_plus v with
      | Some k', Some v' => Some (k', v')
      | _, _ => None
      end
  | _ => None
  end.

Fixpoint parse_items (l : list string) : option (list (bytes * bytes)) :=
  match l with
  | [] => Some []
  | item :: l' =>
      match parse_item item, parse_items l' with
      | Some kv, Some r => Some (kv :: r)
      | _, _ => None
      end
  end.

Definition parse_qsl (query : string) : option (list (bytes * bytes)) :=
  match query with
  | EmptyString => Some []
  | _ => parse_items (split_on "&" query)
  end.

(** What [quote_plus] writes for one byte. *)
Definition plus_quoter (b : ascii) : string :=
  if Ascii.eqb b " " then "+" else quoter EmptyString b.


(** One item of [urlencode], and the pair of byte strings it stands for. *)
Definition query_item (kv : str * pyval) : string :=
  quote_plus (fst kv) ++ "=" ++ quote_plus (str_of_pyval (snd kv)).

Definition query_pair (kv : str * pyval) : bytes * bytes :=
  (utf8 (fst kv), utf8 (str_of_pyval (snd kv))).


(** ** Decoded JSON, exceptions, requests *)

(** What [json.load] returns: [None], [bool], [int], [float] (kept as
    its literal), [str], [list], [dict]. *)
Unset Elimination Schemes.
Inductive json : Type :=
| JNull
| JBool (b : bool)
| JInt (n : Z)
| JFloat (literal : string)
| JStr (s : str)
| JArr (l : list json)
| JObj (m : list (str * json)).
Set Elimination Schemes.

Inductive exn : Type :=
| APIRequestError (http_code : Z) (response : str)
| TransportError (name : str)
| JSONDecodeError
| UnicodeEncodeError
| TypeError.

Inductive result (A : Type) : Type :=
| Ok (a : A)
| Raise (e : exn).
Arguments Ok {A} a.
Arguments Raise {A} e.

(** The arguments of [urllib.request.Request(...)]. *)
Record Request : Type := mkRequest {
  req_data : option bytes;
  req_headers : dict str;
  req_method : option str;
  req_url : str
}.

(** What [urllib.request.urlopen] does with a request: it returns a
    response to read, or raises [urllib.error.HTTPError] (a status
    outside 2xx, with its code and its body), or raises anything else
    (URLError, a socket error, ...), named here by [Failure]. *)
Inductive Outcome : Type :=
| Response (body : bytes)
| HTTPError (code : Z) (body : bytes)
| Failure (name : str).

(** The network and the JSON decoder, parameters of the module. *)
Class Backend : Type := {
  World : Type;
  urlopen : Request -> World -> Outcome * World;
  json_load : bytes -> option json
}.

(** ** The store

    Dictionaries are objects: a function receives a reference, and two
    names may hold the same one.  The store is the list of the
    dictionaries allocated so far, a reference an index in it.  The
    machine also keeps the requests handed to [urlopen], in order. *)

Definition ref := nat.

Record Machine `{Backend} : Type := mkMachine {
  heap : list (dict pyval);
  sent : list Request;
  world : World
}.

Section Operations.
Context `{B : Backend}.

Definition deref (h : list (dict pyval)) (r : ref) : dict pyval := nth r h [].

Definition valid_ref (m : Machine) (r : ref) : Prop := r < List.length (heap m).

(** A dictionary display or [d.copy()]: a new object. *)
Definition alloc (d : dict pyval) (m : Machine) : ref * Machine :=
  (List.length (heap m),
   {| heap := (heap m ++ [d])%list; sent := sent m; world := world m |}).

Fixpoint list_update {A} (l : list A) (i : nat) (f : A -> A) : list A :=
  match l, i with
  | [], _ => []
  | x :: l', O => f x :: l'
  | x :: l', S i' => x :: list_update l' i' f
  end.

(** [d[k] = v] on the object behind [r]. *)
Definition setitem (r : ref) (k : str) (v : pyval) (m : Machine) : Machine :=
  {| heap := list_update (heap m) r (fun d => dict_set d k v);
     sent := sent m; world := world m |}.

(** ** Module constants *)

Definition API_BASE_URL : str := "https://api.github.com".
Definition REQUEST_ACCEPT_VERSION : str := "application/vnd.github.v3+json".
Definition REQUEST_USER_AGENT : str := "magnetikonline/githubutilities 1.0".
Definition REQUEST_DATA_CONTENT_TYPE : str := "application/json".
Definition REQUEST_PAGE_SIZE : nat := 20.

(** The two default [{}] of [_request] and [_request_paged] are objects
    made once, when the functions are defined: the first two cells of
    the store. *)
Definition DEFAULT_REQUEST_PARAMETERS : ref := 0.
Definition DEFAULT_PAGED_PARAMETERS : ref := 1.

Definition initial_machine (w : World) : Machine :=
  {| heap := [[]; []]; sent := []; world := w |}.

Definition default_arg {A} (d : A) (o : option A) : A :=
  match o with
  | Some a => a
  | None => d
  end.

(** ** _request *)

(** Lines 30-64 of [_request]: the request it hands to [urlopen], from
    the value of the parameter mapping. *)
Definition _request_build (auth_token : option str) (api_path : str)
    (method : option str) (parameter_collection : dict pyval) : result Request :=
  let request_url := API_BASE_URL ++ "/" ++ api_path in
  let header_collection : dict str :=
    [("Accept", REQUEST_ACCEPT_VERSION); ("User-Agent", REQUEST_USER_AGENT)] in
  let header_collection :=
    match auth_token with
    | Some t => dict_set header_collection "Authorization" ("token " ++ t)
    | None => header_collection
    end in
  match method with
  | None =>
      let request_url :=
        if dict_truthy parameter_collection
        then request_url ++ "?" ++ urlencode parameter_collection
        else request_url in
      Ok {| req_data := None; req_headers := header_collection;
            req_method := None; req_url := request_url |}
  | Some meth =>
      let data_send :=
        if dict_truthy parameter_collection
        then json_dumps parameter_collection else EmptyString in
      let header_collection :=
        if dict_truthy parameter_collection
        then dict_set header_collection "Content-Type" REQUEST_DATA_CONTENT_TYPE
        else header_collection in
      let mk data :=
        {| req_data := data; req_headers := header_collection;
           req_method := Some meth; req_url := request_url |} in
      if String.eqb data_send EmptyString then Ok (mk None)
      else
        match bytes_ascii data_send with
        | Some b => Ok (mk (Some b))
        | None => Raise UnicodeEncodeError
        end
  end.

(** Lines 66-77: [urlopen], the [except urllib.error.HTTPError] clause
    and [json.load]. *)
Definition _request_send (req : Request) (m : Machine) : result json * Machine :=
  let (out, w') := urlopen req (world m) in
  let m' := {| heap := heap m; sent := (sent m ++ [req])%list; world := w' |} in
  match out with
  | HTTPError code body => (Raise (APIRequestError code (str_of_bytes body)), m')
  | Failure name => (Raise (TransportError name), m')
  | Response body =>
      match json_load body with
      | Some response_data => (Ok response_data, m')
      | None => (Raise JSONDecodeError, m')
      end
  end.

(** The mapping [_request] reads: the object behind its argument, or
    behind its default. *)
Definition request_parameters (parameter_collection : option ref) (m : Machine)
    : dict pyval :=
  deref (heap m) (default_arg DEFAULT_REQUEST_PARAMETERS parameter_collection).

Definition _request (auth_token : option str) (api_path : str)
    (method : option str) (parameter_collection : option ref)
    (m : Machine) : result json * Machine :=
  match _request_build auth_token api_path method
          (request_parameters parameter_collection m) with
  | Raise e => (Raise e, m)
  | Ok req => _request_send req m
  end.
End Operations.

(** ** _request_paged *)

Fixpoint chars_of (s : str) : list json :=
  match s with
  | EmptyString => []
  | String c s' => JStr (String c EmptyString) :: chars_of s'
  end.

(** [for response_item in response_data]: a list gives its elements, a
    dictionary its keys, a string its characters; anything else is not
    iterable. *)
Definition py_iter (response_data : json) : result (list json) :=
  match response_data with
  | JArr l => Ok l
  | JObj m => Ok (map (fun kv => JStr (fst kv)) m)
  | JStr s => Ok (chars_of s)
  | JNull | JBool _ | JInt _ | JFloat _ => Raise TypeError
  end.

(** An item processor is a generator function over the decoded page.
    It is modelled by the list of what it yields, or by the exception
    it raises before it yields. *)
Definition ItemProcessor : Type := json -> result (list json).

Definition default_item_processor : ItemProcessor := py_iter.

(** Where the generator stands: not started; suspended at [yield] with
    the items of the page still to come; finished. *)
Inductive GenState : Type :=
| GStart
| GSuspended (rest : list json)
| GDone.

(** The generator object: its arguments and its local variables
    ([request_page], and [active] which is true in [GStart] and at every
    [yield]). *)
Record PagedGen : Type := mkPagedGen {
  g_auth_token : option str;
  g_api_path : str;
  g_parameter_collection : ref;
  g_item_processor : ItemProcessor;
  g_request_page : nat;
  g_state : GenState
}.

Definition gen_with (g : PagedGen) (page : nat) (st : GenState) : PagedGen :=
  {| g_auth_token := g_auth_token g;
     g_api_path := g_api_path g;
     g_parameter_collection := g_parameter_collection g;
     g_item_processor := g_item_processor g;
     g_request_page := page;
     g_state := st |}.

(** Calling the generator function runs none of its body. *)
Definition _request_paged (auth_token : option str) (api_path : str)
    (parameter_collection : option ref) (item_processor : option ItemProcessor)
    : PagedGen :=
  {| g_auth_token := auth_token;
     g_api_path := api_path;
     g_parameter_collection := default_arg DEFAULT_PAGED_PARAMETERS parameter_collection;
     g_item_processor := default_arg default_item_processor item_processor;
     g_request_page := 1;
     g_state := GStart |}.

Section Paging.
Context `{B : Backend}.

(** Lines 102-105: the copy of the base mapping, updated with the page
    and the page size. *)
Definition paged_parameters (g : PagedGen) (m : Machine) : ref * Machine :=
  let (p, m1) := alloc (deref (heap m) (g_parameter_collection g)) m in
  let m2 := setitem p "page" (VStr (str_of_int (g_request_page g))) m1 in
  (p, setitem p "per_page" (VStr (str_of_int REQUEST_PAGE_SIZE)) m2).

(** One turn of [while active], from line 102 to the first [yield] of
    the page, or to the end of the loop when the page has no item. *)
Definition paged_fetch (g : PagedGen) (m : Machine)
    : result (option json) * PagedGen * Machine :=
  let (p, m1) := paged_parameters g m in
  let (r, m2) := _request (g_auth_token g) (g_api_path g) None (Some p) m1 in
  match r with
  | Raise e => (Raise e, gen_with g (g_request_page g) GDone, m2)
  | Ok response_data =>
      match g_item_processor g response_data with
      | Raise e => (Raise e, gen_with g (g_request_page g) GDone, m2)
      | Ok [] => (Ok None, gen_with g (S (g_request_page g)) GDone, m2)
      | Ok (response_item :: rest) =>
          (Ok (Some response_item), gen_with g (g_request_page g) (GSuspended rest), m2)
      end
  end.

(** [next(gen)]: [Ok (Some x)] is a yielded item, [Ok None] is
    [StopIteration]. *)
Definition gen_next (g : PagedGen) (m : Machine)
    : result (option json) * PagedGen * Machine :=
  match g_state g with
  | GStart => paged_fetch g m
  | GSuspended (response_item :: rest) =>
      (Ok (Some response_item), gen_with g (g_request_page g) (GSuspended rest), m)
  | GSuspended [] => paged_fetch (gen_with g (S (g_request_page g)) (GSuspended [])) m
  | GDone => (Ok None, g, m)
  end.

(** [list(gen)]: the items until [StopIteration]; [None] when [fuel]
    calls of [next] did not reach it. *)
Fixpoint gen_collect (fuel : nat) (g : PagedGen) (m : Machine)
    : option (result (list json) * Machine) :=
  match fuel with
  | O => None
  | S fuel' =>
      match gen_next g m with
      | (Raise e, _, m') => Some (Raise e, m')
      | (Ok None, _, m') => Some (Ok [], m')
      | (Ok (Some x), g', m') =>
          match gen_collect fuel' g' m' with
          | Some (Ok l, m'') => Some (Ok (x :: l), m'')
          | other => other
          end
      end
  end.

(** [n] calls of [next], whatever they return. *)
Fixpoint gen_steps (n : nat) (g : PagedGen) (m : Machine) : PagedGen * Machine :=
  match n with
  | O => (g, m)
  | S n' =>
      match gen_next g m with
      | (_, g', m') => gen_steps n' g' m'
      end
  end.

(** ** Endpoint functions *)

Definition _urlquote (value : str) : str := quote value.

Definition user_repository_list (auth_token : option str) (repository_type : str)
    (m : Machine) : PagedGen * Machine :=
  let (p, m1) := alloc [("type", VStr repository_type)] m in
  (_request_paged auth_token "user/repos" (Some p) None, m1).

Definition organization_repository_list (auth_token : option str)
    (organization_name : str) (repository_type : str)
    (m : Machine) : PagedGen * Machine :=
  let (p, m1) := alloc [("type", VStr repository_type)] m in
  (_request_paged auth_token ("orgs/" ++ _urlquote organization_name ++ "/repos")
     (Some p) None, m1).

(** The closure [add_property] of [update_repository_properties], on
    the object behind [patch_collection]. *)
Definition add_property (patch_collection : ref) (param : option pyval) (key : str)
    (m : Machine) : Machine :=
  match param with
  | Some v => setitem patch_collection key v m
  | None => m
  end.

Definition update_repository_properties (auth_token : option str)
    (owner repository : str)
    (default_branch description homepage issues private projects wiki : option pyval)
    (m : Machine) : result json * Machine :=
  let (patch_collection, m) := alloc [("name", VStr repository)] m in
  let m := add_property patch_collection default_branch "default_branch" m in
  let m := add_property patch_collection description "description" m in
  let m := add_property patch_collection homepage "homepage" m in
  let m := add_property patch_collection issues "has_issues" m in
  let m := add_property patch_collection private "private" m in
  let m := add_property patch_collection projects "has_projects" m in
  let m := add_property patch_collection wiki "has_wiki" m in
  _request auth_token
    ("repos/" ++ _urlquote owner ++ "/" ++ _urlquote repository)
    (Some "PATCH") (Some patch_collection) m.

Definition user_subscription_list (auth_token : option str) : PagedGen :=
  _request_paged auth_token "user/subscriptions" None None.

Definition repository_subscription (auth_token : option str) (owner repository : str)
    (m : Machine) : result json * Machine :=
  _request auth_token
    ("repos/" ++ _urlquote owner ++ "/" ++ _urlquote repository ++ "/subscription")
    None None m.

Definition set_user_repository_subscription (auth_token : option str)
    (owner repository : str) (subscribed ignored : option bool)
    (m : Machine) : result json * Machine :=
  let subscribed := default_arg false subscribed in
  let ignored := default_arg false ignored in
  let (p, m1) :=
    alloc [("subscribed", VBool subscribed); ("ignored", VBool ignored)] m in
  _request auth_token
    ("repos/" ++ _urlquote owner ++ "/" ++ _urlquote repository ++ "/subscription")
    (Some "PUT") (Some p) m1.

Definition repository_webhook_list (auth_token : option str) (owner repository : str)
    (m : Machine) : result json * Machine :=
  _request auth_token
    ("repos/" ++ _urlquote owner ++ "/" ++ _urlquote repository ++ "/hooks")
    None None m.
End Paging.

(** ** Statement helpers *)

Fixpoint nodupb (l : list str) : bool :=
  match l with
  | [] => true
  | k :: l' => (negb (existsb (String.eqb k) l') && nodupb l')%bool
  end.

(** The item an optional argument contributes to a mapping. *)
Definition supplied (key : str) (param : option pyval) : dict pyval :=
  match param with
  | Some v => [(key, v)]
  | None => []
  end.


(** What [add_property] does to the value of the dictionary. *)
Definition with_property (param : option pyval) (key : str) (d : dict pyval)
    : dict pyval :=
  match param with
  | Some v => dict_set d key v
  | None => d
  end.


(** ** Statement helpers for paging *)

(** The value of [parameter_paged_collection] for a base mapping and a
    page number. *)
Definition merged_parameters (base : dict pyval) (page : nat) : dict pyval :=
  dict_set (dict_set base "page" (VStr (str_of_int page)))
    "per_page" (VStr (str_of_int REQUEST_PAGE_SIZE)).

(** From the world [w], the backend answers the requests for the pages
    [page], [page + 1], ... of a base mapping with responses whose
    extracted items are the lists of [pages], in order. *)
Fixpoint serves `{Backend} (auth_token : option str) (api_path : str)
    (item_processor : ItemProcessor) (base : dict pyval) (page : nat)
    (pages : list (list json)) (w : World) : Prop :=
  match pages with
  | [] => True
  | items :: pages' =>
      exists req body response_data w',
        _request_build auth_token api_path None (merged_parameters base page) = Ok req /\
        urlopen req w = (Response body, w') /\
        json_load body = Some response_data /\
        item_processor response_data = Ok items /\
        serves auth_token api_path item_processor base (S page) pages' w'
  end.

(** The requests [reqs] are the requests for the pages [page],
    [page + 1], ... of a base mapping. *)
Definition page_requests `{Backend} (auth_token : option str) (api_path : str)
    (base : dict pyval) (page : nat) (reqs : list Request) : Prop :=
  Forall2
    (fun req k =>
       _request_build auth_token api_path None (merged_parameters base k) = Ok req)
    reqs (seq page (List.length reqs)).


(** The invariant of a run of the generator [g0] started on the machine
    [m]: the generator [g] is [g0] up to its page and state, the store
    has only grown, and the requests made so far are those of the
    pages [1], [2], ... up to the current one. *)
Definition gen_inv `{Backend} (g0 : PagedGen) (m : Machine)
    (g : PagedGen) (m' : Machine) (reqs : list Request) : Prop :=
  (exists page st,
     g = gen_with g0 page st /\
     match st with
     | GStart => page = 1 /\ reqs = []
     | GSuspended _ => page = List.length reqs
     | GDone => True
     end) /\
  (exists extra, heap m' = (heap m ++ extra)%list) /\
  sent m' = (sent m ++ reqs)%list /\
  page_requests (g_auth_token g0) (g_api_path g0)
    (deref (heap m) (g_parameter_collection g0)) 1 reqs.

(** The items already yielded, put before the result of the rest of a
    run. *)
Definition prepend `{Backend} (items : list json)
    (r : option (result (list json) * Machine))
    : option (result (list json) * Machine) :=
  match r with
  | Some (Ok l, m') => Some (Ok (items ++ l)%list, m')
  | other => other
  end.


(** ** Further statement helpers *)

Fixpoint str_forall (p : ascii -> bool) (s : string) : bool :=
  match s with
  | EmptyString => true
  | String c s' => (p c && str_forall p s')%bool
  end.

(** The header names a call of [_request] sends, in order. *)
Definition header_names (auth_token : option str) (method : option str)
    (d : dict pyval) : list str :=
  ("Accept" :: "User-Agent"
     :: match auth_token with Some _ => ["Authorization"] | None => [] end
     ++ match method, d with
        | Some _, _ :: _ => ["Content-Type"]
        | _, _ => []
        end)%list.


(** Reading a percent-encoded text back: [%XX] is a byte, any other
    character stands for itself. *)
Fixpoint unquote (s : string) : option bytes :=
  match s with
  | EmptyString => Some EmptyString
  | String c s1 =>
      if Ascii.eqb c "%" then
        match s1 with
        | String h1 (String h2 s3) =>
            match unhex h1, unhex h2 with
            | Some x, Some y =>
                option_map (String (ascii_of_N (x * 16 + y))) (unquote s3)
            | _, _ => None
            end
        | _ => None
        end
      else option_map (String c) (unquote s1)
  end.

(** The characters [_urlquote] leaves as they are. *)
Definition kept_by_quote (c : ascii) : bool :=
  (always_safe c || Ascii.eqb c "/")%bool.

(** The characters [_urlquote] writes. *)
Definition written_by_quote (c : ascii) : bool :=
  (always_safe c || Ascii.eqb c "/" || Ascii.eqb c "%")%bool.


(** The request of a listing endpoint for one page: a GET, without a
    body, of the URL [prefix] followed by the page number and the page
    size. *)
Definition page_get (prefix : str) (req : Request) (page : nat) : Prop :=
  req_method req = None /\
  req_data req = None /\
  req_url req = prefix ++ "page=" ++ str_of_int page ++ "&per_page=20".


(** As [serves], with what holds of the page number and of the world
    once the pages are served. *)
Fixpoint serves_then `{Backend} (auth_token : option str) (api_path : str)
    (item_processor : ItemProcessor) (base : dict pyval) (page : nat)
    (pages : list (list json)) (w : World) (last : nat -> World -> Prop) : Prop :=
  match pages with
  | [] => last page w
  | items :: pages' =>
      exists req body response_data w',
        _request_build auth_token api_path None (merged_parameters base page) = Ok req /\
        urlopen req w = (Response body, w') /\
        json_load body = Some response_data /\
        item_processor response_data = Ok items /\
        serves_then auth_token api_path item_processor base (S page) pages' w' last
  end.

(** The backend answers the request for the page [page] with an HTTP
    error. *)
Definition http_error_at `{Backend} (auth_token : option str) (api_path : str)
    (base : dict pyval) (code : Z) (body : bytes) (page : nat) (w : World) : Prop :=
  exists req w',
    _request_build auth_token api_path None (merged_parameters base page) = Ok req /\
    urlopen req w = (HTTPError code body, w').


(** The characters [urlencode] writes. *)
Definition written_by_urlencode (c : ascii) : bool :=
  (always_safe c || str_mem c "%+=&")%bool.

(** ** Reading str(bytes) back

    The decoder used to say what the [response] field of the API error
    denotes: the bytes between the quotes, with the escapes of [repr]
    undone. *)

Definition unescape_repr (e : ascii) : option ascii :=
  if Ascii.eqb e "\" then Some "\"%char
  else if Ascii.eqb e "'" then Some "'"%char
  else if Ascii.eqb e dquote then Some dquote
  else if Ascii.eqb e "t" then Some (ascii_of_N 9)
  else if Ascii.eqb e "n" then Some (ascii_of_N 10)
  else if Ascii.eqb e "r" then Some (ascii_of_N 13)
  else None.

Fixpoint unrepr_body (q : ascii) (s : string) : option bytes :=
  match s with
  | EmptyString => None
  | String c s1 =>
      if Ascii.eqb c q then
        match s1 with EmptyString => Some EmptyString | _ => None end
      else if Ascii.eqb c "\" then
        match s1 with
        | EmptyString => None
        | String e s2 =>
            if Ascii.eqb e "x" then
              match s2 with
              | String h1 (String h2 s4) =>
                  match unhex h1, unhex h2 with
                  | Some x, Some y =>
                      option_map (String (ascii_of_N (x * 16 + y))) (unrepr_body q s4)
                  | _, _ => None
                  end
              | _ => None
              end
            else
              match unescape_repr e with
              | Some x => option_map (String x) (unrepr_body q s2)
              | None => None
              end
        end
      else option_map (String c) (unrepr_body q s1)
  end.

Definition bytes_of_repr (s : str) : option bytes :=
  match s with
  | String b (String q rest) =>
      if (Ascii.eqb b "b" && (Ascii.eqb q "'" || Ascii.eqb q dquote))%bool
      then unrepr_body q rest
      else None
  | _ => None
  end.


(** ** A scripted backend

    [urlopen] answers the requests with the outcomes of a script, in
    order, and fails once the script is over; [json.load] reads [[]]
    and the arrays of one-digit numbers. *)

Fixpoint mock_digits (s : string) : option (list json) :=
  match s with
  | String d (String sep rest) =>
      if is_digit d then
        if Ascii.eqb sep "," then
          option_map (cons (JInt (Z.of_N (code d - 48)))) (mock_digits rest)
        else if (Ascii.eqb sep "]" && String.eqb rest EmptyString)%bool then
          Some [JInt (Z.of_N (code d - 48))]
        else None
      else None
  | _ => None
  end.

Definition mock_json_load (b : bytes) : option json :=
  if String.eqb b "[]" then Some (JArr [])
  else
    match b with
    | String c rest =>
        if Ascii.eqb c "[" then option_map JArr (mock_digits rest) else None
    | EmptyString => None
    end.

Definition mock_urlopen (req : Request) (script : list Outcome)
    : Outcome * list Outcome :=
  match script with
  | o :: rest => (o, rest)
  | [] => (Failure "URLError", [])
  end.

Definition MockBackend : Backend :=
  {| World := list Outcome; urlopen := mock_urlopen; json_load := mock_json_load |}.

Definition mock_machine (script : list Outcome) : @Machine MockBackend :=
  @initial_machine MockBackend script.

Definition mock_page : bytes := "[0,1,2,3,4,5,6,7,8,9,0,1,2,3,4,5,6,7,8,9]".

(** Twenty items, a full page. *)
Definition mock_items : list json :=
  map (fun n => JInt (Z.of_nat n)) [0; 1; 2; 3; 4; 5; 6; 7; 8; 9; 0; 1; 2; 3; 4; 5; 6; 7; 8; 9].


(** A machine whose store holds, after the two defaults, the mapping
    [{"description": "x"}]. *)
Definition mock_patch_machine : @Machine MockBackend :=
  snd (@alloc MockBackend [("description", VStr "x")] (mock_machine [Response "[]"])).


(** * Properties *)

(** ** Strings *)

Lemma append_nil_r (s : string) : s ++ EmptyString = s.
Proof. induction s; simpl; congruence. Qed.

Lemma append_assoc (a b c : string) : (a ++ b) ++ c = a ++ (b ++ c).
Proof. induction a; simpl; congruence. Qed.

Lemma str_flat_map_app (f : ascii -> string) (a b : string) :
  str_flat_map f (a ++ b) = str_flat_map f a ++ str_flat_map f b.
Proof.
  induction a as [|c a IH]; simpl; [reflexivity|].
  now rewrite IH, append_assoc.
Qed.

Lemma length_append (a b : string) : length (a ++ b) = length a + length b.
Proof. induction a; simpl; congruence. Qed.

(** ** ASCII texts *)

Lemma is_ascii_app (a b : string) :
  is_ascii (a ++ b) = (is_ascii a && is_ascii b)%bool.
Proof.
  induction a as [|c a IH]; simpl; [reflexivity|].
  now rewrite IH, andb_assoc.
Qed.

Lemma bytes_ascii_ok (s : string) : is_ascii s = true -> bytes_ascii s = Some s.
Proof.
  induction s as [|c s IH]; simpl; [reflexivity|].
  intros H. apply andb_true_iff in H as [Hc Hs].
  now rewrite Hc, (IH Hs).
Qed.

Lemma json_escape_char_ascii (c : ascii) : is_ascii (json_escape_char c) = true.
Proof. each_char c; reflexivity. Qed.

Lemma json_string_ascii (s : str) : is_ascii (json_string s) = true.
Proof.
  unfold json_string. simpl. rewrite is_ascii_app. simpl.
  rewrite andb_true_r.
  induction s as [|c s IH]; simpl; [reflexivity|].
  now rewrite is_ascii_app, json_escape_char_ascii, IH.
Qed.

Lemma json_member_ascii (kv : str * pyval) : is_ascii (json_member kv) = true.
Proof.
  destruct kv as [k v]. unfold json_member. simpl fst; simpl snd.
  rewrite !is_ascii_app, json_string_ascii. simpl.
  destruct v as [[|]|s]; simpl; [reflexivity|reflexivity|].
  apply (json_string_ascii s).
Qed.

Lemma concat_ascii (sep : string) (l : list string) :
  is_ascii sep = true -> Forall (fun s => is_ascii s = true) l ->
  is_ascii (String.concat sep l) = true.
Proof.
  intros Hsep Hl. induction Hl as [|s l Hs Hl IH]; [reflexivity|].
  simpl. destruct l as [|s' l']; [exact Hs|].
  rewrite !is_ascii_app, Hs, Hsep. exact IH.
Qed.

Lemma json_dumps_ascii (d : dict pyval) : is_ascii (json_dumps d) = true.
Proof.
  unfold json_dumps. simpl. rewrite is_ascii_app. simpl. rewrite andb_true_r.
  apply concat_ascii; [reflexivity|].
  apply Forall_forall. intros s Hs. apply in_map_iff in Hs as [kv [<- _]].
  apply json_member_ascii.
Qed.

Lemma json_dumps_not_empty (d : dict pyval) :
  String.eqb (json_dumps d) EmptyString = false.
Proof. reflexivity. Qed.

(** ** json.dumps read back *)

Lemma scan_string_escape (c : ascii) (tail : string) :
  scan_string (json_escape_char c ++ tail) = cons_fst c (scan_string tail).
Proof. each_char c; reflexivity. Qed.

Lemma scan_string_body (s : str) (rest : string) :
  scan_string (str_flat_map json_escape_char s ++ String dquote rest) = Some (s, rest).
Proof.
  induction s as [|c s IH]; [reflexivity|].
  simpl str_flat_map. rewrite append_assoc, scan_string_escape, IH. reflexivity.
Qed.

Lemma json_string_app (s : str) (rest : string) :
  json_string s ++ rest =
  String dquote (str_flat_map json_escape_char s ++ String dquote rest).
Proof. unfold json_string. simpl. now rewrite append_assoc. Qed.

Lemma scan_value_json (v : pyval) (rest : string) :
  scan_value (json_value v ++ rest) = Some (v, rest).
Proof.
  destruct v as [[|]|s]; [reflexivity|reflexivity|].
  simpl json_value. rewrite json_string_app.
  unfold scan_value. rewrite Ascii.eqb_refl, scan_string_body. reflexivity.
Qed.

Lemma scan_member_json (kv : str * pyval) (rest : string) :
  scan_member (json_member kv ++ rest) = Some (kv, rest).
Proof.
  destruct kv as [k v]. unfold json_member. simpl fst; simpl snd.
  rewrite append_assoc, json_string_app.
  change ((":" ++ json_value v) ++ rest) with (String ":" (json_value v ++ rest)).
  unfold scan_member.
  change (Ascii.eqb dquote dquote) with true. cbv iota.
  rewrite scan_string_body.
  change (Ascii.eqb ":" ":") with true. cbv iota.
  rewrite scan_value_json. reflexivity.
Qed.

Lemma concat_members (kv : str * pyval) (l : list (str * pyval)) (rest : string) :
  String.concat "," (map json_member (kv :: l)) ++ rest =
  json_member kv ++ str_tail l rest.
Proof.
  revert kv. induction l as [|kv' l IH]; intros kv.
  - reflexivity.
  - change (String.concat "," (map json_member (kv :: kv' :: l)))
      with (json_member kv ++ "," ++ String.concat "," (map json_member (kv' :: l))).
    rewrite !append_assoc. rewrite IH. reflexivity.
Qed.

Lemma scan_members_tail (l : list (str * pyval)) (fuel : nat) :
  List.length l < fuel -> scan_members fuel (str_tail l "}") = Some l.
Proof.
  revert fuel. induction l as [|kv l IH]; intros fuel Hf.
  - destruct fuel; [lia|]. reflexivity.
  - destruct fuel; [simpl in Hf; lia|].
    change (str_tail (kv :: l) "}")
      with (String "," (json_member kv ++ str_tail l "}")).
    cbn [scan_members].
    change (Ascii.eqb "," "}") with false. change (Ascii.eqb "," ",") with true.
    cbv iota. rewrite scan_member_json, IH by (simpl in Hf; lia). reflexivity.
Qed.

Lemma str_tail_length (l : list (str * pyval)) (rest : string) :
  List.length l <= length (str_tail l rest).
Proof.
  induction l as [|kv l IH]; simpl; [lia|].
  rewrite length_append. lia.
Qed.

Lemma dict_set_fresh {V} (d : dict V) (k : str) (v : V) :
  ~ In k (dict_keys d) -> dict_set d k v = (d ++ [(k, v)])%list.
Proof.
  induction d as [|[k' v'] d IH]; simpl; intros Hk; [reflexivity|].
  destruct (String.eqb_spec k' k) as [->|Hne]; [tauto|].
  rewrite IH by tauto. reflexivity.
Qed.

Lemma dict_of_pairs_from {V} (l acc : dict V) :
  NoDup (dict_keys (acc ++ l)%list) ->
  fold_left (fun d kv => dict_set d (fst kv) (snd kv)) l acc = (acc ++ l)%list.
Proof.
  revert acc. induction l as [|[k v] l IH]; intros acc Hnd; simpl.
  - now rewrite app_nil_r.
  - assert (Hk : ~ In k (dict_keys acc)).
    { unfold dict_keys in Hnd. rewrite map_app in Hnd. simpl in Hnd.
      apply NoDup_remove_2 in Hnd. intros Hin. apply Hnd.
      apply in_or_app. now left. }
    rewrite (dict_set_fresh acc k v Hk).
    rewrite IH; rewrite <- app_assoc; [reflexivity|exact Hnd].
Qed.

Lemma dict_of_pairs_wf {V} (d : dict V) : dict_wf d -> dict_of_pairs d = d.
Proof. intros H. unfold dict_of_pairs. now rewrite dict_of_pairs_from. Qed.

(** Reading back what [json.dumps] wrote gives the dictionary. *)
Lemma json_loads_dumps (d : dict pyval) :
  dict_wf d -> json_loads (json_dumps d) = Some d.
Proof.
  intros Hwf. destruct d as [|kv l]; [reflexivity|].
  unfold json_dumps.
  change ("{" ++ String.concat "," (map json_member (kv :: l)) ++ "}")
    with (String "{" (String.concat "," (map json_member (kv :: l)) ++ "}")).
  rewrite concat_members.
  assert (Hb : exists body, json_member kv ++ str_tail l "}" = String dquote body).
  { destruct kv as [k v]. unfold json_member. simpl fst; simpl snd.
    rewrite append_assoc, json_string_app. eauto. }
  destruct Hb as [body Hb].
  unfold json_loads.
  change (Ascii.eqb "{" "{") with true. cbv iota.
  rewrite Hb. change (Ascii.eqb dquote "}") with false. cbv iota.
  rewrite <- Hb, scan_member_json.
  rewrite scan_members_tail.
  - cbn [option_map]. now rewrite (dict_of_pairs_wf (kv :: l) Hwf).
  - simpl. rewrite length_append.
    pose proof (str_tail_length l "}"). lia.
Qed.

(** ** The request layer *)

Section RequestLayer.
Context `{B : Backend}.

Lemma _request_send_frame (req : Request) (m : Machine) :
  sent (snd (_request_send req m)) = (sent m ++ [req])%list /\
  heap (snd (_request_send req m)) = heap m.
Proof.
  unfold _request_send. destruct (urlopen req (world m)) as [out w'].
  destruct out as [body|code body|name]; [|split; reflexivity..].
  destruct (json_load body); split; reflexivity.
Qed.

Lemma _request_build_get (auth_token : option str) (api_path : str) (d : dict pyval) :
  exists req,
    _request_build auth_token api_path None d = Ok req /\
    req_data req = None /\ req_method req = None /\
    req_url req =
      (if dict_truthy d
       then (API_BASE_URL ++ "/" ++ api_path) ++ "?" ++ urlencode d
       else API_BASE_URL ++ "/" ++ api_path).
Proof. eexists. split; [reflexivity|]. repeat split; reflexivity. Qed.

Lemma _request_build_body (auth_token : option str) (api_path meth : str)
    (d : dict pyval) :
  exists req,
    _request_build auth_token api_path (Some meth) d = Ok req /\
    req_method req = Some meth /\
    req_url req = API_BASE_URL ++ "/" ++ api_path /\
    req_data req = (if dict_truthy d then Some (json_dumps d) else None) /\
    dict_get (req_headers req) "Content-Type" =
      (if dict_truthy d then Some REQUEST_DATA_CONTENT_TYPE else None).
Proof.
  unfold _request_build. destruct d as [|kv d].
  - eexists. split; [reflexivity|]. repeat split; try reflexivity.
    destruct auth_token; reflexivity.
  - cbn [dict_truthy]. rewrite json_dumps_not_empty.
    rewrite (bytes_ascii_ok _ (json_dumps_ascii (kv :: d))).
    eexists. split; [reflexivity|]. repeat split; try reflexivity.
    destruct auth_token; reflexivity.
Qed.

Lemma _request_build_total (auth_token : option str) (api_path : str)
    (method : option str) (d : dict pyval) :
  exists req, _request_build auth_token api_path method d = Ok req.
Proof.
  destruct method as [meth|].
  - destruct (_request_build_body auth_token api_path meth d) as [req [H _]]. eauto.
  - destruct (_request_build_get auth_token api_path d) as [req [H _]]. eauto.
Qed.

Lemma _request_build_headers (auth_token : option str) (api_path : str)
    (method : option str) (d : dict pyval) (req : Request) :
  _request_build auth_token api_path method d = Ok req ->
  dict_get (req_headers req) "Accept" = Some REQUEST_ACCEPT_VERSION /\
  dict_get (req_headers req) "User-Agent" = Some REQUEST_USER_AGENT /\
  dict_get (req_headers req) "Authorization" =
    option_map (fun t => "token " ++ t) auth_token.
Proof.
  unfold _request_build. destruct method as [meth|].
  - destruct (dict_truthy d).
    + rewrite json_dumps_not_empty. destruct (bytes_ascii (json_dumps d)); [|discriminate].
      intros H; injection H as <-. destruct auth_token; repeat split; reflexivity.
    + cbn. intros H; injection H as <-. destruct auth_token; repeat split; reflexivity.
  - intros H; injection H as <-. destruct auth_token; repeat split; reflexivity.
Qed.

(** [_request] hands one request to [urlopen], the one [_request_build]
    makes from the mapping behind the reference, and leaves the store
    as it is. *)
Lemma _request_sends (auth_token : option str) (api_path : str)
    (method : option str) (parameter_collection : option ref) (m : Machine) :
  exists req,
    _request_build auth_token api_path method
      (request_parameters parameter_collection m) = Ok req /\
    _request auth_token api_path method parameter_collection m = _request_send req m /\
    sent (snd (_request auth_token api_path method parameter_collection m))
      = (sent m ++ [req])%list /\
    heap (snd (_request auth_token api_path method parameter_collection m)) = heap m.
Proof.
  destruct (_request_build_total auth_token api_path method
    (request_parameters parameter_collection m)) as [req Hreq].
  exists req. unfold _request. rewrite Hreq.
  destruct (_request_send_frame req m) as [Hs Hh]. auto.
Qed.

(** C7. Every request [_request] makes carries the fixed [Accept] and
    [User-Agent] headers; with a token it carries the header
    [Authorization: token <auth_token>], without one it carries no
    [Authorization] header. *)
Theorem request_headers (auth_token : option str) (api_path : str)
    (method : option str) (parameter_collection : option ref) (m : Machine) :
  exists req,
    sent (snd (_request auth_token api_path method parameter_collection m))
      = (sent m ++ [req])%list /\
    dict_get (req_headers req) "Accept" = Some "application/vnd.github.v3+json" /\
    dict_get (req_headers req) "User-Agent" = Some "magnetikonline/githubutilities 1.0" /\
    match auth_token with
    | Some t => dict_get (req_headers req) "Authorization" = Some ("token " ++ t)
    | None => dict_get (req_headers req) "Authorization" = None
    end.
Proof.
  destruct (_request_sends auth_token api_path method parameter_collection m)
    as [req [Hb [_ [Hs _]]]].
  exists req. split; [exact Hs|].
  destruct (_request_build_headers _ _ _ _ _ Hb) as [Ha [Hu Ht]].
  repeat split; [exact Ha|exact Hu|].
  destruct auth_token; exact Ht.
Qed.

End RequestLayer.

(** ** urlencode read back *)

Lemma replace_quoter (b : ascii) :
  replace_space_plus (quoter " " b) = plus_quoter b.
Proof. each_char b; reflexivity. Qed.

Lemma replace_space_plus_app (a b : string) :
  replace_space_plus (a ++ b) = replace_space_plus a ++ replace_space_plus b.
Proof. apply str_flat_map_app. Qed.

Lemma replace_quote_from_bytes (bs : bytes) :
  replace_space_plus (quote_from_bytes bs " ") = str_flat_map plus_quoter bs.
Proof.
  induction bs as [|b bs IH]; [reflexivity|].
  unfold quote_from_bytes in *. simpl str_flat_map.
  now rewrite replace_space_plus_app, replace_quoter, IH.
Qed.

Lemma plus_quoter_no_space (b : ascii) :
  Ascii.eqb b " " = false -> quoter EmptyString b = plus_quoter b.
Proof. intros H. unfold plus_quoter. now rewrite H. Qed.

Lemma str_mem_app (c : ascii) (a b : string) :
  str_mem c (a ++ b) = (str_mem c a || str_mem c b)%bool.
Proof.
  induction a as [|x a IH]; simpl; [reflexivity|].
  now rewrite IH, orb_assoc.
Qed.

Lemma utf8_char_space (c : ascii) :
  str_mem " " (utf8_char c) = Ascii.eqb c " ".
Proof. each_char c; reflexivity. Qed.

Lemma utf8_space (s : str) : str_mem " " (utf8 s) = str_mem " " s.
Proof.
  induction s as [|c s IH]; [reflexivity|].
  unfold utf8 in *. simpl. rewrite str_mem_app, utf8_char_space, IH. reflexivity.
Qed.

Lemma quote_no_space (bs : bytes) :
  str_mem " " bs = false ->
  quote_from_bytes bs EmptyString = str_flat_map plus_quoter bs.
Proof.
  induction bs as [|b bs IH]; [reflexivity|].
  simpl. intros H. apply orb_false_iff in H as [Hb Hbs].
  unfold quote_from_bytes in *. simpl.
  rewrite (IH Hbs). rewrite plus_quoter_no_space; [reflexivity|].
  rewrite Ascii.eqb_sym. exact Hb.
Qed.

(** [quote_plus] writes the UTF-8 bytes one by one. *)
Lemma quote_plus_bytes (s : str) : quote_plus s = str_flat_map plus_quoter (utf8 s).
Proof.
  unfold quote_plus, quote_safe. destruct (str_mem " " s) eqn:Hs.
  - apply replace_quote_from_bytes.
  - apply quote_no_space. now rewrite utf8_space.
Qed.

Lemma unquote_plus_quoter (b : ascii) (tail : string) :
  unquote_plus (plus_quoter b ++ tail) = option_map (String b) (unquote_plus tail).
Proof. each_char b; reflexivity. Qed.

Lemma unquote_plus_quote (bs : bytes) :
  unquote_plus (str_flat_map plus_quoter bs) = Some bs.
Proof.
  induction bs as [|b bs IH]; [reflexivity|].
  simpl str_flat_map. now rewrite unquote_plus_quoter, IH.
Qed.

Lemma plus_quoter_separators (b : ascii) :
  str_mem "&" (plus_quoter b) = false /\ str_mem "=" (plus_quoter b) = false.
Proof. each_char b; split; reflexivity. Qed.

Lemma quote_plus_separators (s : str) :
  str_mem "&" (quote_plus s) = false /\ str_mem "=" (quote_plus s) = false.
Proof.
  rewrite quote_plus_bytes. induction (utf8 s) as [|b bs [IH1 IH2]]; [now split|].
  simpl. rewrite !str_mem_app, IH1, IH2.
  destruct (plus_quoter_separators b) as [-> ->]. now split.
Qed.

Lemma unquote_quote_plus (s : str) : unquote_plus (quote_plus s) = Some (utf8 s).
Proof. rewrite quote_plus_bytes. apply unquote_plus_quote. Qed.

Lemma split_on_none (sep : ascii) (a : string) :
  str_mem sep a = false -> split_on sep a = [a].
Proof.
  induction a as [|c a IH]; [reflexivity|].
  simpl. intros H. apply orb_false_iff in H as [Hc Ha].
  now rewrite Hc, (IH Ha).
Qed.

Lemma split_on_first (sep : ascii) (a b : string) :
  str_mem sep a = false ->
  split_on sep (a ++ String sep b) = a :: split_on sep b.
Proof.
  induction a as [|c a IH]; simpl.
  - intros _. now rewrite Ascii.eqb_refl.
  - intros H. apply orb_false_iff in H as [Hc Ha].
    now rewrite Hc, (IH Ha).
Qed.

Lemma urlencode_items (d : dict pyval) :
  urlencode d = String.concat "&" (map query_item d).
Proof. reflexivity. Qed.

Lemma query_item_no_amp (kv : str * pyval) : str_mem "&" (query_item kv) = false.
Proof.
  unfold query_item. rewrite !str_mem_app.
  destruct (quote_plus_separators (fst kv)) as [-> _].
  destruct (quote_plus_separators (str_of_pyval (snd kv))) as [-> _].
  reflexivity.
Qed.

Lemma parse_query_item (kv : str * pyval) :
  parse_item (query_item kv) = Some (query_pair kv).
Proof.
  unfold parse_item, query_item.
  change ("=" ++ quote_plus (str_of_pyval (snd kv)))
    with (String "=" (quote_plus (str_of_pyval (snd kv)))).
  rewrite split_on_first by apply quote_plus_separators.
  rewrite split_on_none by apply quote_plus_separators.
  now rewrite !unquote_quote_plus.
Qed.

Lemma split_on_concat (sep : ascii) (x : string) (l : list string) :
  Forall (fun s => str_mem sep s = false) (x :: l) ->
  split_on sep (String.concat (String sep EmptyString) (x :: l)) = x :: l.
Proof.
  revert x. induction l as [|y l IH]; intros x H.
  - apply split_on_none. now inversion H.
  - change (String.concat (String sep EmptyString) (x :: y :: l))
      with (x ++ String sep (String.concat (String sep EmptyString) (y :: l))).
    inversion H as [|? ? Hx Hl]; subst.
    now rewrite split_on_first, IH.
Qed.

Lemma parse_query_items (d : dict pyval) :
  parse_items (map query_item d) = Some (map query_pair d).
Proof.
  induction d as [|kv d IH]; [reflexivity|].
  simpl. now rewrite parse_query_item, IH.
Qed.

Lemma query_item_not_empty (kv : str * pyval) (l : list string) :
  String.concat "&" (query_item kv :: l) <> EmptyString.
Proof.
  assert (H : forall a b : string, a ++ String "=" b <> EmptyString).
  { intros [|c a] b; discriminate. }
  unfold query_item.
  change ("=" ++ quote_plus (str_of_pyval (snd kv)))
    with (String "=" (quote_plus (str_of_pyval (snd kv)))).
  destruct l as [|y l].
  - apply H.
  - change (String.concat "&" (?x :: y :: l)) with (x ++ "&" ++ String.concat "&" (y :: l)).
    rewrite append_assoc. apply H.
Qed.

(** Reading back what [urlencode] wrote gives the items of the
    dictionary, in order, as UTF-8. *)
Lemma parse_qsl_urlencode (d : dict pyval) :
  parse_qsl (urlencode d) = Some (map query_pair d).
Proof.
  destruct d as [|kv d]; [reflexivity|].
  rewrite urlencode_items. unfold parse_qsl. cbn [map].
  destruct (String.concat "&" (query_item kv :: map query_item d)) eqn:E.
  - exfalso. exact (query_item_not_empty kv _ E).
  - rewrite <- E. change "&" with (String "&"%char EmptyString).
    rewrite split_on_concat.
    + apply (parse_query_items (kv :: d)).
    + apply Forall_forall. intros item Hs.
      change (In item (map query_item (kv :: d))) in Hs.
      apply in_map_iff in Hs as [kv' [<- _]]. apply query_item_no_amp.
Qed.

(** ** What a request carries *)

Section RequestContents.
Context `{B : Backend}.

(** C5. A call of [_request] with a method and a non-empty mapping
    sends the mapping as JSON: the body is [json.dumps] of the mapping,
    which reads back as the mapping, and the [Content-Type] header is
    [application/json].  With an empty mapping the request has no body
    and no [Content-Type] header. *)
Theorem request_body_json (auth_token : option str) (api_path meth : str)
    (parameter_collection : option ref) (m : Machine) :
  dict_wf (request_parameters parameter_collection m) ->
  exists req,
    sent (snd (_request auth_token api_path (Some meth) parameter_collection m))
      = (sent m ++ [req])%list /\
    req_method req = Some meth /\
    (request_parameters parameter_collection m <> [] ->
       req_data req = Some (json_dumps (request_parameters parameter_collection m)) /\
       json_loads (json_dumps (request_parameters parameter_collection m))
         = Some (request_parameters parameter_collection m) /\
       dict_get (req_headers req) "Content-Type" = Some "application/json") /\
    (request_parameters parameter_collection m = [] ->
       req_data req = None /\
       dict_get (req_headers req) "Content-Type" = None).
Proof.
  intros Hwf.
  destruct (_request_sends auth_token api_path (Some meth) parameter_collection m)
    as [req [Hb [_ [Hs _]]]].
  destruct (_request_build_body auth_token api_path meth
    (request_parameters parameter_collection m)) as [req' [Hb' [Hm [_ [Hd Hc]]]]].
  rewrite Hb in Hb'. injection Hb' as <-.
  exists req. split; [exact Hs|]. split; [exact Hm|].
  destruct (request_parameters parameter_collection m) as [|kv d] eqn:E.
  - split; [congruence|]. intros _. now split.
  - split; [|discriminate]. intros _.
    split; [exact Hd|]. split; [|exact Hc].
    now apply json_loads_dumps.
Qed.

(** C6. A call of [_request] without a method sends no body; its URL
    is the base URL and the path, followed, when the mapping is not
    empty, by [?] and the query string of the mapping, which reads back
    as the items of the mapping, every key and every value. *)
Theorem request_get_query (auth_token : option str) (api_path : str)
    (parameter_collection : option ref) (m : Machine) :
  exists req,
    sent (snd (_request auth_token api_path None parameter_collection m))
      = (sent m ++ [req])%list /\
    req_data req = None /\
    req_method req = None /\
    (request_parameters parameter_collection m = [] ->
       req_url req = "https://api.github.com" ++ "/" ++ api_path) /\
    (request_parameters parameter_collection m <> [] ->
       req_url req = ("https://api.github.com" ++ "/" ++ api_path) ++ "?"
                       ++ urlencode (request_parameters parameter_collection m)) /\
    parse_qsl (urlencode (request_parameters parameter_collection m))
      = Some (map query_pair (request_parameters parameter_collection m)).
Proof.
  destruct (_request_sends auth_token api_path None parameter_collection m)
    as [req [Hb [_ [Hs _]]]].
  destruct (_request_build_get auth_token api_path
    (request_parameters parameter_collection m)) as [req' [Hb' [Hd [Hm Hu]]]].
  rewrite Hb in Hb'. injection Hb' as <-.
  exists req. repeat split; try assumption.
  - intros E. rewrite E in Hu. exact Hu.
  - intros E. destruct (request_parameters parameter_collection m); [congruence|].
    exact Hu.
  - apply parse_qsl_urlencode.
Qed.

End RequestContents.

(** ** The store *)

Lemma nodupb_sound (l : list str) : nodupb l = true -> NoDup l.
Proof.
  induction l as [|k l IH]; simpl; intros H; constructor.
  - apply andb_true_iff in H as [H _]. apply negb_true_iff in H.
    intros Hin. assert (Hex : existsb (String.eqb k) l = true).
    { apply existsb_exists. exists k. split; [exact Hin|apply String.eqb_refl]. }
    congruence.
  - apply IH. now apply andb_true_iff in H as [_ H].
Qed.

Lemma deref_old (h l : list (dict pyval)) (r : ref) :
  r < List.length h -> deref (h ++ l)%list r = deref h r.
Proof. intros H. unfold deref. now apply app_nth1. Qed.

Lemma deref_new (h : list (dict pyval)) (d : dict pyval) :
  deref (h ++ [d])%list (List.length h) = d.
Proof. unfold deref. rewrite app_nth2, Nat.sub_diag by lia. reflexivity. Qed.

Lemma list_update_new {A} (h : list A) (x : A) (f : A -> A) :
  list_update (h ++ [x])%list (List.length h) f = (h ++ [f x])%list.
Proof. induction h as [|y h IH]; simpl; congruence. Qed.

Section Store.
Context `{B : Backend}.

Lemma setitem_new (m : Machine) (h : list (dict pyval)) (d : dict pyval)
    (k : str) (v : pyval) :
  heap m = (h ++ [d])%list ->
  heap (setitem (List.length h) k v m) = (h ++ [dict_set d k v])%list /\
  sent (setitem (List.length h) k v m) = sent m /\
  world (setitem (List.length h) k v m) = world m.
Proof.
  intros Hm. unfold setitem. simpl. rewrite Hm, list_update_new. auto.
Qed.

Lemma add_property_new (m : Machine) (h : list (dict pyval)) (d : dict pyval)
    (param : option pyval) (key : str) :
  heap m = (h ++ [d])%list ->
  heap (add_property (List.length h) param key m)
    = (h ++ [with_property param key d])%list /\
  sent (add_property (List.length h) param key m) = sent m /\
  world (add_property (List.length h) param key m) = world m.
Proof.
  intros Hm. destruct param as [v|]; simpl; [now apply setitem_new|auto].
Qed.

End Store.

(** ** Endpoint functions *)

Section Endpoints.
Context `{B : Backend}.

(** A request with a method, made from a fresh non-empty dictionary. *)
Lemma _request_fresh_body (auth_token : option str) (api_path meth : str)
    (m : Machine) (h : list (dict pyval)) (kv : str * pyval) (d : dict pyval) :
  heap m = (h ++ [kv :: d])%list ->
  exists req,
    sent (snd (_request auth_token api_path (Some meth) (Some (List.length h)) m))
      = (sent m ++ [req])%list /\
    req_method req = Some meth /\
    req_url req = API_BASE_URL ++ "/" ++ api_path /\
    req_data req = Some (json_dumps (kv :: d)) /\
    dict_get (req_headers req) "Content-Type" = Some REQUEST_DATA_CONTENT_TYPE.
Proof.
  intros Hm.
  destruct (_request_sends auth_token api_path (Some meth) (Some (List.length h)) m)
    as [req [Hb [_ [Hs _]]]].
  unfold request_parameters in Hb. cbn [default_arg] in Hb.
  rewrite Hm, deref_new in Hb.
  destruct (_request_build_body auth_token api_path meth (kv :: d))
    as [req' [Hb' [Hmeth [Hu [Hd Hc]]]]].
  rewrite Hb in Hb'. injection Hb' as <-.
  exists req. auto.
Qed.

(** C4. [update_repository_properties] sends one PATCH whose body is
    the JSON of a mapping with the key [name], bound to the repository
    argument, followed by one key for each optional argument that is
    not [None] (default_branch, description, homepage, has_issues,
    private, has_projects, has_wiki) and by no other key. *)
Theorem update_repository_patch_body (auth_token : option str)
    (owner repository : str)
    (default_branch description homepage issues private projects wiki : option pyval)
    (m : Machine) :
  exists req patch,
    sent (snd (update_repository_properties auth_token owner repository
                 default_branch description homepage issues private projects wiki m))
      = (sent m ++ [req])%list /\
    patch = (("name", VStr repository)
               :: supplied "default_branch" default_branch
               ++ supplied "description" description
               ++ supplied "homepage" homepage
               ++ supplied "has_issues" issues
               ++ supplied "private" private
               ++ supplied "has_projects" projects
               ++ supplied "has_wiki" wiki)%list /\
    req_method req = Some "PATCH" /\
    req_data req = Some (json_dumps patch) /\
    json_loads (json_dumps patch) = Some patch.
Proof.
  unfold update_repository_properties, alloc. cbv zeta.
  set (m0 := {| heap := _; sent := sent m; world := world m |}).
  assert (H0 : heap m0 = (heap m ++ [[("name", VStr repository)]])%list /\ sent m0 = sent m)
    by (split; reflexivity).
  destruct H0 as [H0 S0].
  destruct (add_property_new m0 _ _ default_branch "default_branch" H0) as [H1 [S1 _]].
  destruct (add_property_new _ _ _ description "description" H1) as [H2 [S2 _]].
  destruct (add_property_new _ _ _ homepage "homepage" H2) as [H3 [S3 _]].
  destruct (add_property_new _ _ _ issues "has_issues" H3) as [H4 [S4 _]].
  destruct (add_property_new _ _ _ private "private" H4) as [H5 [S5 _]].
  destruct (add_property_new _ _ _ projects "has_projects" H5) as [H6 [S6 _]].
  destruct (add_property_new _ _ _ wiki "has_wiki" H6) as [H7 [S7 _]].
  set (m7 := add_property _ wiki "has_wiki" _) in *.
  set (final := with_property wiki "has_wiki" _) in H7.
  assert (Hp : exists kv d,
    final = kv :: d /\
    kv :: d = (("name", VStr repository)
               :: supplied "default_branch" default_branch
               ++ supplied "description" description
               ++ supplied "homepage" homepage
               ++ supplied "has_issues" issues
               ++ supplied "private" private
               ++ supplied "has_projects" projects
               ++ supplied "has_wiki" wiki)%list /\
    dict_wf (kv :: d)).
  { unfold final. clear.
    destruct default_branch, description, homepage, issues, private, projects, wiki;
      eexists; eexists; (split; [reflexivity|split; [reflexivity|]]);
      apply nodupb_sound; reflexivity. }
  destruct Hp as [kv [d [Hkv [Hpatch Hwf]]]].
  rewrite Hkv in H7.
  destruct (_request_fresh_body auth_token
    ("repos/" ++ _urlquote owner ++ "/" ++ _urlquote repository) "PATCH" m7 _ kv d H7)
    as [req [Hs [Hm [_ [Hd _]]]]].
  exists req, (kv :: d).
  split; [etransitivity; [exact Hs|]; f_equal; congruence|]. split; [exact Hpatch|]. split; [exact Hm|].
  split; [exact Hd|]. now apply json_loads_dumps.
Qed.

(** C10. [set_user_repository_subscription] sends one PUT whose
    mapping is [subscribed] and [ignored], each the flag given or
    [False] when it is omitted; the mapping is never empty, so the
    request always has a body, the JSON of these two keys, and the
    JSON content type. *)
Theorem subscription_put_body (auth_token : option str) (owner repository : str)
    (subscribed ignored : option bool) (m : Machine) :
  exists req params,
    sent (snd (set_user_repository_subscription auth_token owner repository
                 subscribed ignored m)) = (sent m ++ [req])%list /\
    params = [("subscribed", VBool (match subscribed with Some b => b | None => false end));
              ("ignored", VBool (match ignored with Some b => b | None => false end))] /\
    req_method req = Some "PUT" /\
    req_data req = Some (json_dumps params) /\
    json_loads (json_dumps params) = Some params /\
    dict_get (req_headers req) "Content-Type" = Some "application/json".
Proof.
  unfold set_user_repository_subscription, alloc. cbv zeta.
  set (m1 := {| heap := _; sent := sent m; world := world m |}).
  assert (H1 : heap m1 = (heap m ++
    [[("subscribed", VBool (default_arg false subscribed));
      ("ignored", VBool (default_arg false ignored))]])%list) by reflexivity.
  destruct (_request_fresh_body auth_token
    ("repos/" ++ _urlquote owner ++ "/" ++ _urlquote repository ++ "/subscription")
    "PUT" m1 _ _ _ H1) as [req [Hs [Hm [_ [Hd Hc]]]]].
  exists req. eexists. split; [exact Hs|]. split; [reflexivity|].
  split; [exact Hm|]. split; [exact Hd|]. split; [|exact Hc].
  apply json_loads_dumps. apply nodupb_sound. reflexivity.
Qed.

(** C9. [repository_webhook_list] makes one request: a GET of
    [repos/<owner>/<repository>/hooks], with no query string (no [page],
    no [per_page]) and no body, and returns the decoded response as it
    is.  The default mapping of [_request] is taken as the module made
    it, empty. *)
Theorem webhook_list_single_get (auth_token : option str) (owner repository : str)
    (m : Machine) :
  deref (heap m) DEFAULT_REQUEST_PARAMETERS = [] ->
  exists req,
    sent (snd (repository_webhook_list auth_token owner repository m))
      = (sent m ++ [req])%list /\
    req_method req = None /\
    req_data req = None /\
    req_url req = "https://api.github.com/repos/" ++ _urlquote owner ++ "/"
                    ++ _urlquote repository ++ "/hooks" /\
    forall body w' response_data,
      urlopen req (world m) = (Response body, w') ->
      json_load body = Some response_data ->
      fst (repository_webhook_list auth_token owner repository m) = Ok response_data.
Proof.
  intros Hdef. unfold repository_webhook_list.
  destruct (_request_sends auth_token
    ("repos/" ++ _urlquote owner ++ "/" ++ _urlquote repository ++ "/hooks")
    None None m) as [req [Hb [Hr [Hs _]]]].
  destruct (_request_build_get auth_token
    ("repos/" ++ _urlquote owner ++ "/" ++ _urlquote repository ++ "/hooks")
    (request_parameters None m)) as [req' [Hb' [Hd [Hm Hu]]]].
  rewrite Hb in Hb'. injection Hb' as <-.
  unfold request_parameters in Hu. cbn [default_arg] in Hu. rewrite Hdef in Hu.
  exists req. split; [exact Hs|]. split; [exact Hm|]. split; [exact Hd|].
  split; [exact Hu|].
  intros body w' response_data Ho Hj. rewrite Hr. unfold _request_send.
  rewrite Ho, Hj. reflexivity.
Qed.

End Endpoints.

(** ** Paging *)

Section PagingProperties.
Context `{B : Backend}.

Lemma paged_parameters_eq (g : PagedGen) (m : Machine) :
  paged_parameters g m =
  (List.length (heap m),
   {| heap := (heap m ++ [merged_parameters (deref (heap m) (g_parameter_collection g))
                            (g_request_page g)])%list;
      sent := sent m; world := world m |}).
Proof.
  unfold paged_parameters, alloc, setitem. cbn [heap sent world].
  now rewrite !list_update_new.
Qed.

(** One turn of the loop: the copy is a new cell, the request is the
    one for the current page, and the generator either is over or is
    suspended on the same page. *)
Lemma paged_fetch_spec (g : PagedGen) (m : Machine) :
  exists req r g' w',
    _request_build (g_auth_token g) (g_api_path g) None
      (merged_parameters (deref (heap m) (g_parameter_collection g)) (g_request_page g))
      = Ok req /\
    paged_fetch g m =
      (r, g',
       {| heap := (heap m ++ [merged_parameters (deref (heap m) (g_parameter_collection g))
                                (g_request_page g)])%list;
          sent := (sent m ++ [req])%list; world := w' |}) /\
    (exists page st, g' = gen_with g page st /\
       (st = GDone \/ exists rest, st = GSuspended rest /\ page = g_request_page g)).
Proof.
  destruct (_request_build_total (g_auth_token g) (g_api_path g) None
    (merged_parameters (deref (heap m) (g_parameter_collection g)) (g_request_page g)))
    as [req Hreq].
  exists req. unfold paged_fetch. rewrite paged_parameters_eq.
  unfold _request, request_parameters. cbn [default_arg heap].
  rewrite deref_new, Hreq. unfold _request_send. cbn [heap sent world].
  destruct (urlopen req (world m)) as [out w'].
  destruct out as [body|code body|name].
  - destruct (json_load body) as [response_data|].
    + destruct (g_item_processor g response_data) as [[|x rest]|e];
        do 3 eexists; (split; [reflexivity|split; [reflexivity|]]);
        do 2 eexists; (split; [reflexivity|]); eauto.
    + do 3 eexists. split; [reflexivity|split; [reflexivity|]].
      do 2 eexists. split; [reflexivity|]. eauto.
  - do 3 eexists. split; [reflexivity|split; [reflexivity|]].
    do 2 eexists. split; [reflexivity|]. eauto.
  - do 3 eexists. split; [reflexivity|split; [reflexivity|]].
    do 2 eexists. split; [reflexivity|]. eauto.
Qed.

(** The turn of the loop on a page the backend answers. *)
Lemma paged_fetch_response (g : PagedGen) (m : Machine) (req : Request)
    (body : bytes) (response_data : json) (w' : World) (items : list json) :
  _request_build (g_auth_token g) (g_api_path g) None
    (merged_parameters (deref (heap m) (g_parameter_collection g)) (g_request_page g))
    = Ok req ->
  urlopen req (world m) = (Response body, w') ->
  json_load body = Some response_data ->
  g_item_processor g response_data = Ok items ->
  paged_fetch g m =
    (match items with
     | [] => (Ok None, gen_with g (S (g_request_page g)) GDone)
     | x :: rest => (Ok (Some x), gen_with g (g_request_page g) (GSuspended rest))
     end,
     {| heap := (heap m ++ [merged_parameters (deref (heap m) (g_parameter_collection g))
                              (g_request_page g)])%list;
        sent := (sent m ++ [req])%list; world := w' |}).
Proof.
  intros Hreq Ho Hj Hp. unfold paged_fetch. rewrite paged_parameters_eq.
  unfold _request, request_parameters. cbn [default_arg heap].
  rewrite deref_new, Hreq. unfold _request_send. cbn [heap sent world].
  rewrite Ho, Hj, Hp. destruct items; reflexivity.
Qed.

Lemma gen_with_with (g : PagedGen) (p q : nat) (s t : GenState) :
  gen_with (gen_with g p s) q t = gen_with g q t.
Proof. reflexivity. Qed.

Lemma paged_fetch_state (g : PagedGen) (page : nat) (s t : GenState) (m : Machine) :
  paged_fetch (gen_with g page s) m = paged_fetch (gen_with g page t) m.
Proof. reflexivity. Qed.

(** The items of a page that are still to come are yielded one per
    call, without a request. *)
Lemma gen_collect_suspended (rest : list json) (g : PagedGen) (page : nat)
    (m : Machine) (fuel : nat) :
  gen_collect (List.length rest + fuel) (gen_with g page (GSuspended rest)) m =
  prepend rest (gen_collect fuel (gen_with g page (GSuspended [])) m).
Proof.
  induction rest as [|x rest IH].
  - simpl. destruct (gen_collect fuel _ m) as [[[l|e] m']|]; reflexivity.
  - cbn [List.length Nat.add gen_collect gen_next g_state gen_with g_request_page].
    change (gen_with (gen_with g page (GSuspended (x :: rest))) page (GSuspended rest))
      with (gen_with g page (GSuspended rest)).
    rewrite IH.
    destruct (gen_collect fuel _ m) as [[[l|e] m']|]; reflexivity.
Qed.

Lemma gen_next_page_end (g : PagedGen) (page : nat) (m : Machine) :
  gen_next (gen_with g page (GSuspended [])) m =
  paged_fetch (gen_with g (S page) (GSuspended [])) m.
Proof. reflexivity. Qed.

Lemma gen_collect_step (fuel : nat) (g : PagedGen) (m : Machine) :
  gen_collect (S fuel) g m =
  match gen_next g m with
  | (Raise e, _, m') => Some (Raise e, m')
  | (Ok None, _, m') => Some (Ok [], m')
  | (Ok (Some x), g', m') => prepend [x] (gen_collect fuel g' m')
  end.
Proof.
  cbn [gen_collect]. destruct (gen_next g m) as [[[[x|]|e] g'] m']; try reflexivity.
  destruct (gen_collect fuel g' m') as [[[l|e] m'']|]; reflexivity.
Qed.

(** From a generator suspended at the end of page [page], on a backend
    that answers the next pages with non-empty lists of items and then
    with an empty one. *)
Lemma gen_collect_pages (pages : list (list json)) :
  forall (g : PagedGen) (page : nat) (m : Machine) (fuel : nat),
  valid_ref m (g_parameter_collection g) ->
  Forall (fun items => items <> []) pages ->
  serves (g_auth_token g) (g_api_path g) (g_item_processor g)
    (deref (heap m) (g_parameter_collection g)) (S page)
    (pages ++ [[]])%list (world m) ->
  List.length (List.concat pages) < fuel ->
  exists m',
    gen_collect fuel (gen_with g page (GSuspended [])) m = Some (Ok (List.concat pages), m') /\
    List.length (sent m') = List.length (sent m) + List.length pages + 1.
Proof.
  induction pages as [|items pages IH]; intros g page m fuel Hv Hne Hs Hf.
  - destruct Hs as [req [body [response_data [w' [Hreq [Ho [Hj [Hp _]]]]]]]].
    destruct fuel as [|fuel]; [simpl in Hf; lia|].
    rewrite gen_collect_step, gen_next_page_end.
    rewrite (paged_fetch_response (gen_with g (S page) (GSuspended [])) m req body
      response_data w' [] Hreq Ho Hj Hp).
    eexists. split; [reflexivity|]. cbn [sent]. rewrite length_app. simpl. lia.
  - cbn [app serves] in Hs.
    destruct Hs as [req [body [response_data [w' [Hreq [Ho [Hj [Hp Hs]]]]]]]].
    inversion Hne as [|? ? Hitems Hne']; subst.
    destruct items as [|x rest]; [congruence|].
    destruct fuel as [|fuel]; [simpl in Hf; lia|].
    rewrite gen_collect_step, gen_next_page_end.
    rewrite (paged_fetch_response (gen_with g (S page) (GSuspended [])) m req body
      response_data w' (x :: rest) Hreq Ho Hj Hp).
    change (g_request_page (gen_with g (S page) (GSuspended []))) with (S page).
    rewrite gen_with_with.
    simpl in Hf. rewrite length_app in Hf.
    replace fuel with (List.length rest + (fuel - List.length rest)) by lia.
    rewrite gen_collect_suspended.
    set (m2 := {| heap := _; sent := (sent m ++ [req])%list; world := w' |}).
    destruct (IH g (S page) m2 (fuel - List.length rest)) as [m' [Hc Hl]].
    + unfold valid_ref, m2. cbn [heap]. rewrite length_app. unfold valid_ref in Hv. lia.
    + exact Hne'.
    + unfold m2. cbn [heap world]. rewrite deref_old by exact Hv. exact Hs.
    + lia.
    + rewrite Hc. exists m'. split; [reflexivity|].
      rewrite Hl. unfold m2. cbn [sent]. rewrite length_app. simpl. lia.
Qed.

Lemma gen_collect_start (g : PagedGen) (m : Machine) (fuel : nat) :
  g_state g = GStart -> g_request_page g = 1 ->
  gen_collect fuel g m = gen_collect fuel (gen_with g 0 (GSuspended [])) m.
Proof.
  intros Hst Hpage. destruct fuel as [|fuel]; [reflexivity|].
  destruct g as [a p c ip page st]. cbn in Hst, Hpage. subst. reflexivity.
Qed.

Lemma full_pages_length (pages : list (list json)) :
  Forall (fun items => List.length items = REQUEST_PAGE_SIZE) pages ->
  List.length (List.concat pages) = REQUEST_PAGE_SIZE * List.length pages.
Proof.
  induction 1 as [|items pages Hi _ IH]; [reflexivity|].
  simpl List.concat. rewrite length_app, Hi, IH. simpl List.length. lia.
Qed.

(** A turn of the loop whose page was fetched and extracted ends the
    sequence exactly when the extraction gave no item. *)
Lemma paged_fetch_ends_iff (g : PagedGen) (m : Machine) (req : Request)
    (body : bytes) (response_data : json) (w' : World) (items : list json) :
  _request_build (g_auth_token g) (g_api_path g) None
    (merged_parameters (deref (heap m) (g_parameter_collection g)) (g_request_page g))
    = Ok req ->
  urlopen req (world m) = (Response body, w') ->
  json_load body = Some response_data ->
  g_item_processor g response_data = Ok items ->
  fst (fst (paged_fetch g m)) = Ok None <-> items = [].
Proof.
  intros Hreq Ho Hj Hp.
  rewrite (paged_fetch_response g m req body response_data w' items Hreq Ho Hj Hp).
  destruct items; cbn; split; intros H; congruence.
Qed.


(** C1. On a backend that answers the page requests with pages whose
    extraction gives items, and then with a page whose extraction gives
    none, the sequence of [_request_paged] yields the items of the
    pages, in order, makes one request per page and one for the empty
    page, and ends there: N full pages of 20 items give 20 * N items
    after N + 1 requests, and an empty first page gives no item after
    one request. *)
Theorem paged_sequence (auth_token : option str) (api_path : str)
    (parameter_collection : option ref) (item_processor : option ItemProcessor)
    (m : Machine) (pages : list (list json)) (fuel : nat) :
  valid_ref m (default_arg DEFAULT_PAGED_PARAMETERS parameter_collection) ->
  Forall (fun items => items <> []) pages ->
  serves auth_token api_path (default_arg default_item_processor item_processor)
    (deref (heap m) (default_arg DEFAULT_PAGED_PARAMETERS parameter_collection)) 1
    (pages ++ [[]])%list (world m) ->
  List.length (List.concat pages) < fuel ->
  exists m',
    gen_collect fuel
      (_request_paged auth_token api_path parameter_collection item_processor) m
      = Some (Ok (List.concat pages), m') /\
    List.length (sent m') = List.length (sent m) + List.length pages + 1 /\
    (Forall (fun items => List.length items = 20) pages ->
       List.length (List.concat pages) = 20 * List.length pages).
Proof.
  intros Hv Hne Hs Hf.
  set (g := _request_paged auth_token api_path parameter_collection item_processor).
  destruct (gen_collect_pages pages g 0 m fuel Hv Hne Hs Hf) as [m' [Hc Hl]].
  exists m'. split; [|split; [exact Hl|apply full_pages_length]].
  rewrite gen_collect_start by reflexivity. exact Hc.
Qed.

End PagingProperties.

Lemma paged_sequence_witness :
  exists m',
    gen_collect 21 (@_request_paged (Some "t") "user/subscriptions" None None)
      (mock_machine [Response mock_page; Response "[]"])
      = Some (Ok (List.concat [mock_items]), m') /\
    List.length (sent m') =
      List.length (sent (mock_machine [Response mock_page; Response "[]"]))
        + List.length [mock_items] + 1 /\
    (Forall (fun items => List.length items = 20) [mock_items] ->
       List.length (List.concat [mock_items]) = 20 * List.length [mock_items]).
Proof.
  apply (@paged_sequence MockBackend (Some "t") "user/subscriptions" None None
           (mock_machine [Response mock_page; Response "[]"]) [mock_items] 21).
  - cbv. lia.
  - repeat constructor. discriminate.
  - simpl. do 4 eexists. repeat split; try reflexivity.
    do 4 eexists. repeat split; reflexivity.
  - simpl. lia.
Defined.

(** ** The base mapping of a paged sequence *)

Lemma dict_get_set {V} (d : dict V) (k k' : str) (v : V) :
  dict_get (dict_set d k v) k' = if String.eqb k k' then Some v else dict_get d k'.
Proof.
  induction d as [|[k0 v0] d IH]; simpl.
  - destruct (String.eqb k k'); reflexivity.
  - destruct (String.eqb_spec k0 k) as [->|Hne]; simpl.
    + destruct (String.eqb k k'); reflexivity.
    + rewrite IH. destruct (String.eqb_spec k0 k') as [->|Hne'].
      * destruct (String.eqb_spec k k'); [congruence|reflexivity].
      * reflexivity.
Qed.

Lemma merged_parameters_get (base : dict pyval) (page : nat) (key : str) :
  dict_get (merged_parameters base page) key =
  if String.eqb key "page" then Some (VStr (str_of_int page))
  else if String.eqb key "per_page" then Some (VStr "20")
  else dict_get base key.
Proof.
  unfold merged_parameters. rewrite !dict_get_set.
  rewrite (String.eqb_sym "per_page" key), (String.eqb_sym "page" key).
  destruct (String.eqb_spec key "per_page") as [->|_]; reflexivity.
Qed.

Section Frame.
Context `{B : Backend}.

Lemma page_requests_snoc (auth_token : option str) (api_path : str)
    (base : dict pyval) (reqs : list Request) (req : Request) :
  page_requests auth_token api_path base 1 reqs ->
  _request_build auth_token api_path None
    (merged_parameters base (S (List.length reqs))) = Ok req ->
  page_requests auth_token api_path base 1 (reqs ++ [req])%list.
Proof.
  unfold page_requests. intros Hr Hreq.
  rewrite length_app. simpl List.length. rewrite seq_app.
  apply Forall2_app; [exact Hr|].
  simpl. constructor; [exact Hreq|constructor].
Qed.

(** One call of [next] keeps the invariant, with at most one request
    more. *)
Lemma gen_next_inv (g0 g : PagedGen) (m m' : Machine) (reqs : list Request) :
  valid_ref m (g_parameter_collection g0) ->
  gen_inv g0 m g m' reqs ->
  exists reqs',
    gen_inv g0 m (snd (fst (gen_next g m'))) (snd (gen_next g m')) reqs' /\
    List.length reqs' <= S (List.length reqs).
Proof.
  intros Hv [[page [st [Hg Hst]]] [[extra Hh] [Hs Hp]]]. subst g.
  assert (Hbase : deref (heap m') (g_parameter_collection g0)
                  = deref (heap m) (g_parameter_collection g0)).
  { rewrite Hh. now apply deref_old. }
  assert (Hfetch : forall q,
    (q = 1 /\ reqs = [] \/ q = S (List.length reqs)) ->
    exists reqs',
      gen_inv g0 m (snd (fst (paged_fetch (gen_with g0 q (GSuspended [])) m')))
        (snd (paged_fetch (gen_with g0 q (GSuspended [])) m')) reqs' /\
      List.length reqs' <= S (List.length reqs)).
  { intros q Hq.
    destruct (paged_fetch_spec (gen_with g0 q (GSuspended [])) m')
      as [req [r [g' [w' [Hreq [Hf [page' [st' [Hg' Hst']]]]]]]]].
    cbn [gen_with g_auth_token g_api_path g_parameter_collection g_request_page] in Hreq.
    rewrite Hbase in Hreq.
    exists (reqs ++ [req])%list. rewrite Hf. cbn [fst snd].
    split; [|rewrite length_app; simpl; lia].
    assert (Hq' : q = S (List.length reqs)).
    { destruct Hq as [[-> ->] | ->]; reflexivity. }
    split; [|split; [|split]].
    - exists page', st'. rewrite Hg', gen_with_with. split; [reflexivity|].
      destruct Hst' as [-> | [rest [-> ->]]]; [exact I|].
      cbn [gen_with g_request_page]. rewrite length_app. simpl. lia.
    - exists (extra ++ [merged_parameters (deref (heap m') (g_parameter_collection g0)) q])%list.
      cbn [heap gen_with g_parameter_collection g_request_page].
      rewrite Hh at 1. now rewrite <- app_assoc.
    - cbn [sent]. rewrite Hs. now rewrite <- app_assoc.
    - apply page_requests_snoc; [exact Hp|]. now rewrite <- Hq'. }
  destruct st as [|[|x rest]|].
  - destruct Hst as [-> ->].
    change (gen_next (gen_with g0 1 GStart) m')
      with (paged_fetch (gen_with g0 1 (GSuspended [])) m').
    apply Hfetch. now left.
  - subst page. rewrite gen_next_page_end. apply Hfetch. now right.
  - exists reqs. split; [|lia].
    cbn [gen_next gen_with g_state g_request_page fst snd].
    split; [|split; [eauto|split; assumption]].
    exists page, (GSuspended rest). split; [reflexivity|exact Hst].
  - exists reqs. split; [|lia].
    cbn [gen_next gen_with g_state fst snd].
    split; [|split; [eauto|split; assumption]].
    exists page, GDone. split; [reflexivity|exact I].
Qed.

Lemma gen_steps_inv (n : nat) :
  forall (g0 g : PagedGen) (m m' : Machine) (reqs : list Request),
  valid_ref m (g_parameter_collection g0) ->
  gen_inv g0 m g m' reqs ->
  exists reqs',
    gen_inv g0 m (fst (gen_steps n g m')) (snd (gen_steps n g m')) reqs' /\
    List.length reqs' <= n + List.length reqs.
Proof.
  induction n as [|n IH]; intros g0 g m m' reqs Hv Hinv.
  - exists reqs. split; [exact Hinv|lia].
  - destruct (gen_next_inv g0 g m m' reqs Hv Hinv) as [reqs1 [Hinv1 Hl1]].
    cbn [gen_steps]. destruct (gen_next g m') as [[r g1] m1]. cbn [fst snd] in Hinv1.
    destruct (IH g0 g1 m m1 reqs1 Hv Hinv1) as [reqs2 [Hinv2 Hl2]].
    exists reqs2. split; [exact Hinv2|lia].
Qed.

(** C8. Whatever the backend answers and however many items are
    pulled, the requests of a paged sequence are those of the pages 1,
    2, 3, ... in order, each made from the base mapping with [page] set
    to the page number and [per_page] to 20, these two keys overriding
    the base ones and the others kept; and every dictionary that was in
    the store before the run, the base mapping and the default empty
    mapping among them, has the same value after it. *)
Theorem paged_parameters_frame (auth_token : option str) (api_path : str)
    (parameter_collection : option ref) (item_processor : option ItemProcessor)
    (m : Machine) (n : nat) :
  valid_ref m (default_arg DEFAULT_PAGED_PARAMETERS parameter_collection) ->
  exists reqs,
    sent (snd (gen_steps n
      (_request_paged auth_token api_path parameter_collection item_processor) m))
      = (sent m ++ reqs)%list /\
    List.length reqs <= n /\
    page_requests auth_token api_path
      (deref (heap m) (default_arg DEFAULT_PAGED_PARAMETERS parameter_collection)) 1 reqs /\
    (forall page key,
       dict_get (merged_parameters
         (deref (heap m) (default_arg DEFAULT_PAGED_PARAMETERS parameter_collection))
         page) key =
       if String.eqb key "page" then Some (VStr (str_of_int page))
       else if String.eqb key "per_page" then Some (VStr "20")
       else dict_get
         (deref (heap m) (default_arg DEFAULT_PAGED_PARAMETERS parameter_collection))
         key) /\
    (forall r, valid_ref m r ->
       deref (heap (snd (gen_steps n
         (_request_paged auth_token api_path parameter_collection item_processor) m))) r
       = deref (heap m) r).
Proof.
  intros Hv.
  set (g0 := _request_paged auth_token api_path parameter_collection item_processor).
  assert (Hinit : gen_inv g0 m g0 m []).
  { split; [|split; [|split]].
    - exists 1, GStart. split; [reflexivity|now split].
    - exists []. now rewrite app_nil_r.
    - now rewrite app_nil_r.
    - constructor. }
  destruct (gen_steps_inv n g0 g0 m m [] Hv Hinit)
    as [reqs [[_ [[extra Hh] [Hs Hp]]] Hl]].
  exists reqs. split; [exact Hs|]. split; [simpl in Hl; lia|].
  split; [exact Hp|]. split; [intros page key; apply merged_parameters_get|].
  intros r Hr. rewrite Hh. now apply deref_old.
Qed.

End Frame.

Lemma paged_parameters_frame_witness :
  exists reqs,
    sent (snd (gen_steps 25 (@_request_paged (Some "t") "user/subscriptions" None None)
                 (mock_machine [Response mock_page; Response "[]"])))
      = (sent (mock_machine [Response mock_page; Response "[]"]) ++ reqs)%list /\
    List.length reqs <= 25 /\
    @page_requests MockBackend (Some "t") "user/subscriptions"
      (deref (heap (mock_machine [Response mock_page; Response "[]"]))
         DEFAULT_PAGED_PARAMETERS) 1 reqs /\
    (forall page key,
       dict_get (merged_parameters
         (deref (heap (mock_machine [Response mock_page; Response "[]"]))
            DEFAULT_PAGED_PARAMETERS) page) key =
       if String.eqb key "page" then Some (VStr (str_of_int page))
       else if String.eqb key "per_page" then Some (VStr "20")
       else dict_get
         (deref (heap (mock_machine [Response mock_page; Response "[]"]))
            DEFAULT_PAGED_PARAMETERS) key) /\
    (forall r, valid_ref (mock_machine [Response mock_page; Response "[]"]) r ->
       deref (heap (snd (gen_steps 25
         (@_request_paged (Some "t") "user/subscriptions" None None)
         (mock_machine [Response mock_page; Response "[]"])))) r
       = deref (heap (mock_machine [Response mock_page; Response "[]"])) r).
Proof.
  apply (@paged_parameters_frame MockBackend (Some "t") "user/subscriptions" None None
           (mock_machine [Response mock_page; Response "[]"]) 25).
  cbv. lia.
Defined.

(** ** Percent-encoding of path segments *)

Lemma _urlquote_bytes (value : str) :
  _urlquote value = str_flat_map (quoter "/") (utf8 value).
Proof. reflexivity. Qed.

(** A byte stands for itself exactly when it is unreserved or a slash;
    any other byte is written [%XX]. *)
Lemma quoter_slash_cases (b : ascii) :
  (always_safe b = true \/ b = "/"%char) /\ quoter "/" b = String b EmptyString \/
  (always_safe b = false /\ b <> "/"%char) /\ quoter "/" b = String "%" (hex2 true b).
Proof.
  each_char b;
    first [ left; split; [first [left; reflexivity | right; reflexivity] | reflexivity]
          | right; split; [split; [reflexivity | discriminate] | reflexivity] ].
Qed.

Lemma utf8_slash (s : str) : str_mem "/" s = true -> str_mem "/" (utf8 s) = true.
Proof.
  induction s as [|c s IH]; simpl; [discriminate|].
  intros H. unfold utf8. simpl. rewrite str_mem_app.
  apply orb_true_iff in H as [H|H].
  - apply Ascii.eqb_eq in H. subst c. reflexivity.
  - unfold utf8 in IH. rewrite (IH H). apply orb_true_r.
Qed.

(** A slash of the name is a slash of the quoted name. *)
Lemma _urlquote_keeps_slash (value : str) :
  str_mem "/" value = true -> str_mem "/" (_urlquote value) = true.
Proof.
  intros H. apply utf8_slash in H. rewrite _urlquote_bytes.
  induction (utf8 value) as [|b bs IH]; simpl in *; [discriminate|].
  rewrite str_mem_app. apply orb_true_iff in H as [H|H].
  - apply Ascii.eqb_eq in H. subst b. reflexivity.
  - rewrite (IH H). apply orb_true_r.
Qed.

(** C3. The slash of a repository name is not percent-encoded: for the
    owner [o] and the repository [a/b], [update_repository_properties]
    requests the URL [.../repos/o/a/b]. *)
Theorem urlquote_slash_not_encoded :
  _urlquote "a/b" = "a/b" /\
  map req_url
    (sent (snd (@update_repository_properties MockBackend (Some "t") "o" "a/b"
                  None None None None None None None
                  (mock_machine [Response "[]"]))))
  = ["https://api.github.com/repos/o/a/b"].
Proof. split; reflexivity. Qed.

(** ** Failures *)

Lemma repr_byte_length (q c : ascii) : 1 <= length (repr_byte q c).
Proof.
  unfold repr_byte.
  repeat match goal with |- context [if ?b then _ else _] => destruct b end;
    simpl; lia.
Qed.

Lemma repr_bytes_length (q : ascii) (b : bytes) :
  length b <= length (str_flat_map (repr_byte q) b).
Proof.
  induction b as [|c b IH]; simpl; [lia|].
  rewrite length_append. pose proof (repr_byte_length q c). lia.
Qed.

(** [str(b)] is never the text of [b]: it is longer by the letter and
    the quotes at least. *)
Lemma str_of_bytes_differs (b : bytes) : str_of_bytes b <> b.
Proof.
  intros H. apply (f_equal length) in H. unfold str_of_bytes in H.
  simpl in H. rewrite length_append in H. simpl in H.
  pose proof (repr_bytes_length (repr_quote b) b). lia.
Qed.

Section Failures.
Context `{B : Backend}.

(** What [_request] raises: the API error for an HTTP error of the
    transport, with the status code and [str] of the body bytes; any
    other failure of the transport, and a failure of the JSON decoder,
    as they are. *)
Lemma _request_raises (auth_token : option str) (api_path : str)
    (method : option str) (parameter_collection : option ref) (m : Machine)
    (req : Request) :
  _request_build auth_token api_path method
    (request_parameters parameter_collection m) = Ok req ->
  (forall code body w',
     urlopen req (world m) = (HTTPError code body, w') ->
     fst (_request auth_token api_path method parameter_collection m)
       = Raise (APIRequestError code (str_of_bytes body))) /\
  (forall name w',
     urlopen req (world m) = (Failure name, w') ->
     fst (_request auth_token api_path method parameter_collection m)
       = Raise (TransportError name)) /\
  (forall body w',
     urlopen req (world m) = (Response body, w') ->
     json_load body = None ->
     fst (_request auth_token api_path method parameter_collection m)
       = Raise JSONDecodeError).
Proof.
  intros Hb. unfold _request. rewrite Hb. unfold _request_send.
  repeat split; intros; repeat match goal with H : _ = _ |- _ => rewrite H end;
    reflexivity.
Qed.

End Failures.

(** C2. On a 404 whose body is the text [Not Found], the [response]
    field of the error [_request] raises is [b'Not Found'], the [repr]
    of the body bytes, not the body text; the [http_code] field is the
    status code. *)
Theorem http_error_response_repr :
  fst (@repository_subscription MockBackend (Some "t") "o" "r"
         (mock_machine [HTTPError 404 "Not Found"]))
    = Raise (APIRequestError 404 "b'Not Found'") /\
  str_of_bytes "Not Found" <> "Not Found".
Proof. split; [reflexivity|apply str_of_bytes_differs]. Qed.

(** ** Instances *)

Lemma request_body_json_witness :
  exists req,
    sent (snd (@_request MockBackend (Some "t") "repos/o/r" (Some "PATCH") (Some 2)
                 mock_patch_machine))
      = (sent mock_patch_machine ++ [req])%list /\
    req_method req = Some "PATCH" /\
    (request_parameters (Some 2) mock_patch_machine <> [] ->
       req_data req = Some (json_dumps (request_parameters (Some 2) mock_patch_machine)) /\
       json_loads (json_dumps (request_parameters (Some 2) mock_patch_machine))
         = Some (request_parameters (Some 2) mock_patch_machine) /\
       dict_get (req_headers req) "Content-Type" = Some "application/json") /\
    (request_parameters (Some 2) mock_patch_machine = [] ->
       req_data req = None /\
       dict_get (req_headers req) "Content-Type" = None).
Proof.
  apply (@request_body_json MockBackend (Some "t") "repos/o/r" "PATCH" (Some 2)
           mock_patch_machine).
  apply nodupb_sound. reflexivity.
Defined.

Lemma webhook_list_single_get_witness :
  exists req,
    sent (snd (@repository_webhook_list MockBackend (Some "t") "o" "r"
                 (mock_machine [Response "[]"])))
      = (sent (mock_machine [Response "[]"]) ++ [req])%list /\
    req_method req = None /\
    req_data req = None /\
    req_url req = "https://api.github.com/repos/" ++ _urlquote "o" ++ "/"
                    ++ _urlquote "r" ++ "/hooks" /\
    forall body w' response_data,
      @urlopen MockBackend req (world (mock_machine [Response "[]"]))
        = (Response body, w') ->
      @json_load MockBackend body = Some response_data ->
      fst (@repository_webhook_list MockBackend (Some "t") "o" "r"
             (mock_machine [Response "[]"])) = Ok response_data.
Proof.
  apply (@webhook_list_single_get MockBackend (Some "t") "o" "r"
           (mock_machine [Response "[]"])).
  reflexivity.
Defined.

(** * Further properties *)

(** ** One call of _request *)

Section RequestOutcome.
Context `{B : Backend}.

(** X1. A call of [_request] hands exactly one request to [urlopen],
    whatever comes back (a response, an HTTP error, another failure, a
    body that is not JSON): there is no second attempt.  The store is
    left as it was, and the world is the one [urlopen] returned. *)
Theorem request_single_attempt (auth_token : option str) (api_path : str)
    (method : option str) (parameter_collection : option ref) (m : Machine) :
  exists req,
    _request_build auth_token api_path method
      (request_parameters parameter_collection m) = Ok req /\
    sent (snd (_request auth_token api_path method parameter_collection m))
      = (sent m ++ [req])%list /\
    heap (snd (_request auth_token api_path method parameter_collection m)) = heap m /\
    world (snd (_request auth_token api_path method parameter_collection m))
      = snd (urlopen req (world m)).
Proof.
  destruct (_request_sends auth_token api_path method parameter_collection m)
    as [req [Hb [Hr [Hs Hh]]]].
  exists req. repeat split; try assumption.
  rewrite Hr. unfold _request_send.
  destruct (urlopen req (world m)) as [[body|code body|name] w']; try reflexivity.
  destruct (json_load body); reflexivity.
Qed.

(** X2. [_request] returns a value exactly when [urlopen] answered
    its request with a response whose body [json.load] decodes, and
    the value is the decoded body, as it is. *)
Theorem request_returns_decoded (auth_token : option str) (api_path : str)
    (method : option str) (parameter_collection : option ref) (m : Machine)
    (response_data : json) :
  fst (_request auth_token api_path method parameter_collection m) = Ok response_data
  <->
  exists req body w',
    _request_build auth_token api_path method
      (request_parameters parameter_collection m) = Ok req /\
    urlopen req (world m) = (Response body, w') /\
    json_load body = Some response_data.
Proof.
  destruct (_request_sends auth_token api_path method parameter_collection m)
    as [req [Hb [Hr _]]].
  rewrite Hr. unfold _request_send. split.
  - intros H. destruct (urlopen req (world m)) as [[body|code body|name] w'] eqn:Ho;
      try discriminate.
    destruct (json_load body) as [j|] eqn:Hj; [|discriminate].
    cbn in H. injection H as <-. exists req, body, w'. auto.
  - intros [req' [body [w' [Hb' [Ho Hj]]]]].
    rewrite Hb in Hb'. injection Hb' as <-. now rewrite Ho, Hj.
Qed.

(** X3. [_request] raises the API error exactly when [urlopen] raised
    an HTTP error: the error then carries the status code of the
    transport, and [str] of the body bytes. *)
Theorem request_api_error_iff (auth_token : option str) (api_path : str)
    (method : option str) (parameter_collection : option ref) (m : Machine)
    (http_code : Z) (response : str) :
  fst (_request auth_token api_path method parameter_collection m)
    = Raise (APIRequestError http_code response)
  <->
  exists req body w',
    _request_build auth_token api_path method
      (request_parameters parameter_collection m) = Ok req /\
    urlopen req (world m) = (HTTPError http_code body, w') /\
    response = str_of_bytes body.
Proof.
  destruct (_request_sends auth_token api_path method parameter_collection m)
    as [req [Hb [Hr _]]].
  rewrite Hr. unfold _request_send. split.
  - intros H. destruct (urlopen req (world m)) as [[body|code body|name] w'] eqn:Ho.
    + destruct (json_load body); discriminate.
    + cbn in H. injection H as <- <-. exists req, body, w'. auto.
    + discriminate.
  - intros [req' [body [w' [Hb' [Ho ->]]]]].
    rewrite Hb in Hb'. injection Hb' as <-. now rewrite Ho.
Qed.


End RequestOutcome.

(** ** The shape of a request *)

Section RequestShape.
Context `{B : Backend}.

Lemma _request_build_cases (auth_token : option str) (api_path : str)
    (method : option str) (d : dict pyval) (req : Request) :
  _request_build auth_token api_path method d = Ok req ->
  dict_keys (req_headers req) = header_names auth_token method d /\
  req_method req = method /\
  (req_data req = None <-> method = None \/ d = []) /\
  (forall body, req_data req = Some body -> body = json_dumps d /\ is_ascii body = true).
Proof.
  unfold _request_build. destruct method as [meth|].
  - destruct d as [|kv d].
    + cbn. intros H. injection H as <-. cbn.
      split; [destruct auth_token; reflexivity|]. split; [reflexivity|].
      split; [tauto|discriminate].
    + cbn [dict_truthy]. rewrite json_dumps_not_empty.
      rewrite (bytes_ascii_ok _ (json_dumps_ascii (kv :: d))).
      intros H. injection H as <-. cbn [req_headers req_method req_data].
      split; [destruct auth_token; reflexivity|]. split; [reflexivity|].
      split.
      * split; [discriminate|]. intros [H|H]; discriminate.
      * intros body H. injection H as <-. split; [reflexivity|apply json_dumps_ascii].
  - intros H. injection H as <-. cbn [req_headers req_method req_data].
    split; [destruct auth_token, d; reflexivity|]. split; [reflexivity|].
    split; [tauto|discriminate].
Qed.

(** X5. The headers of a request are [Accept] and [User-Agent], then
    [Authorization] when there is a token, then [Content-Type] when
    there is a method and the mapping is not empty, and no other: a
    GET never announces a content type, and nothing else is sent. *)
Theorem request_header_names (auth_token : option str) (api_path : str)
    (method : option str) (parameter_collection : option ref) (m : Machine) :
  exists req,
    sent (snd (_request auth_token api_path method parameter_collection m))
      = (sent m ++ [req])%list /\
    dict_keys (req_headers req)
      = header_names auth_token method (request_parameters parameter_collection m) /\
    req_method req = method.
Proof.
  destruct (_request_sends auth_token api_path method parameter_collection m)
    as [req [Hb [_ [Hs _]]]].
  destruct (_request_build_cases _ _ _ _ _ Hb) as [Hk [Hm _]].
  exists req. auto.
Qed.

(** X6. A request has no body exactly when the call has no method or
    its mapping is empty; a body is [json.dumps] of the mapping and
    holds ASCII characters only, whatever the strings of the mapping. *)
Theorem request_body_presence (auth_token : option str) (api_path : str)
    (method : option str) (parameter_collection : option ref) (m : Machine) :
  exists req,
    sent (snd (_request auth_token api_path method parameter_collection m))
      = (sent m ++ [req])%list /\
    (req_data req = None
     <-> method = None \/ request_parameters parameter_collection m = []) /\
    (forall body, req_data req = Some body ->
       body = json_dumps (request_parameters parameter_collection m) /\
       is_ascii body = true).
Proof.
  destruct (_request_sends auth_token api_path method parameter_collection m)
    as [req [Hb [_ [Hs _]]]].
  destruct (_request_build_cases _ _ _ _ _ Hb) as [_ [_ [Hd Ha]]].
  exists req. auto.
Qed.

End RequestShape.

(** ** _urlquote *)

Lemma str_forall_app (p : ascii -> bool) (a b : string) :
  str_forall p (a ++ b) = (str_forall p a && str_forall p b)%bool.
Proof.
  induction a as [|c a IH]; simpl; [reflexivity|].
  now rewrite IH, andb_assoc.
Qed.

Lemma _urlquote_cons (c : ascii) (s : str) :
  _urlquote (String c s) = str_flat_map (quoter "/") (utf8_char c) ++ _urlquote s.
Proof.
  unfold _urlquote, quote, quote_safe, quote_from_bytes, utf8.
  simpl str_flat_map at 2. apply str_flat_map_app.
Qed.

Lemma unquote_quoter (b : ascii) (tail : string) :
  unquote (quoter "/" b ++ tail) = option_map (String b) (unquote tail).
Proof. each_char b; reflexivity. Qed.

(** X7. Percent-decoding the result of [_urlquote] gives back the
    UTF-8 bytes of the name: the encoding loses nothing. *)
Theorem urlquote_roundtrip (value : str) :
  unquote (_urlquote value) = Some (utf8 value).
Proof.
  rewrite _urlquote_bytes. induction (utf8 value) as [|b bs IH]; [reflexivity|].
  simpl str_flat_map. now rewrite unquote_quoter, IH.
Qed.

Lemma quoter_written (b : ascii) : str_forall written_by_quote (quoter "/" b) = true.
Proof. each_char b; reflexivity. Qed.

Lemma quoter_clean (b : ascii) :
  str_mem "?" (quoter "/" b) = false /\
  str_mem "#" (quoter "/" b) = false /\
  is_ascii (quoter "/" b) = true.
Proof. each_char b; repeat split; reflexivity. Qed.

(** X8. The result of [_urlquote] is made of letters, digits, the
    marks [_.-~], the slash and the percent sign only: whatever the
    name, it brings no [?], [#], space or non-ASCII character into the
    URL. *)
Theorem urlquote_alphabet (value : str) :
  str_forall written_by_quote (_urlquote value) = true /\
  str_mem "?" (_urlquote value) = false /\
  str_mem "#" (_urlquote value) = false /\
  is_ascii (_urlquote value) = true.
Proof.
  rewrite _urlquote_bytes. induction (utf8 value) as [|b bs [IH1 [IH2 [IH3 IH4]]]].
  - repeat split; reflexivity.
  - simpl str_flat_map.
    rewrite str_forall_app, !str_mem_app, is_ascii_app, IH1, IH2, IH3, IH4.
    rewrite quoter_written.
    destruct (quoter_clean b) as [-> [-> ->]]. repeat split; reflexivity.
Qed.

Lemma quote_char_kept (c : ascii) :
  kept_by_quote c = true ->
  str_flat_map (quoter "/") (utf8_char c) = String c EmptyString.
Proof. each_char c; intros H; try discriminate H; reflexivity. Qed.

Lemma quote_char_longer (c : ascii) :
  kept_by_quote c = false ->
  2 <= length (str_flat_map (quoter "/") (utf8_char c)).
Proof. each_char c; intros H; try discriminate H; cbn; lia. Qed.

Lemma quote_char_length (c : ascii) :
  1 <= length (str_flat_map (quoter "/") (utf8_char c)).
Proof.
  destruct (kept_by_quote c) eqn:H.
  - rewrite quote_char_kept by exact H. simpl. lia.
  - pose proof (quote_char_longer c H). lia.
Qed.

Lemma _urlquote_length (value : str) : length value <= length (_urlquote value).
Proof.
  induction value as [|c s IH]; [simpl; lia|].
  rewrite _urlquote_cons, length_append. pose proof (quote_char_length c).
  simpl. lia.
Qed.

Lemma _urlquote_grows (value : str) :
  str_forall kept_by_quote value = false -> length value < length (_urlquote value).
Proof.
  induction value as [|c s IH]; [discriminate|].
  simpl str_forall. rewrite _urlquote_cons, length_append. simpl length.
  destruct (kept_by_quote c) eqn:Hc.
  - simpl. intros H. specialize (IH H). pose proof (quote_char_length c). lia.
  - intros _. pose proof (quote_char_longer c Hc). pose proof (_urlquote_length s). lia.
Qed.

(** X9. [_urlquote] leaves a name as it is exactly when the name is
    made of letters, digits, the marks [_.-~] and slashes; any other
    character makes the result longer. *)
Theorem urlquote_identity_iff (value : str) :
  _urlquote value = value <-> str_forall kept_by_quote value = true.
Proof.
  split.
  - intros H. destruct (str_forall kept_by_quote value) eqn:E; [reflexivity|].
    apply _urlquote_grows in E. rewrite H in E. lia.
  - induction value as [|c s IH]; [reflexivity|].
    simpl. intros H. apply andb_true_iff in H as [Hc Hs].
    now rewrite _urlquote_cons, (quote_char_kept c Hc), (IH Hs).
Qed.

(** ** The listing endpoints *)

Lemma uint_digits (d : Decimal.uint) :
  str_forall is_digit (NilEmpty.string_of_uint d) = true.
Proof. induction d; simpl; auto. Qed.

Lemma str_of_int_digits (n : nat) : str_forall is_digit (str_of_int n) = true.
Proof. apply uint_digits. Qed.

Lemma plus_quoter_digit (c : ascii) :
  is_digit c = true -> str_flat_map plus_quoter (utf8_char c) = String c EmptyString.
Proof. each_char c; intros H; try discriminate H; reflexivity. Qed.

Lemma quote_plus_digits (s : str) : str_forall is_digit s = true -> quote_plus s = s.
Proof.
  rewrite quote_plus_bytes. unfold utf8.
  induction s as [|c s IH]; [reflexivity|].
  simpl. intros H. apply andb_true_iff in H as [Hc Hs].
  now rewrite str_flat_map_app, (plus_quoter_digit c Hc), (IH Hs).
Qed.

Lemma dict_set_truthy {V} (d : dict V) (k : str) (v : V) :
  dict_truthy (dict_set d k v) = true.
Proof.
  destruct d as [|[k' v'] d]; simpl; [reflexivity|].
  destruct (String.eqb k' k); reflexivity.
Qed.

(** The URL of the request for a page: the path, [?] and the query
    string of the merged mapping, which is never empty. *)
Lemma paged_request_url (auth_token : option str) (api_path : str)
    (base : dict pyval) (page : nat) (req : Request) :
  _request_build auth_token api_path None (merged_parameters base page) = Ok req ->
  req_method req = None /\
  req_data req = None /\
  req_url req = (API_BASE_URL ++ "/" ++ api_path) ++ "?"
                  ++ urlencode (merged_parameters base page).
Proof.
  unfold _request_build. unfold merged_parameters at 1. rewrite dict_set_truthy.
  intros H. injection H as <-. repeat split; reflexivity.
Qed.

Lemma urlencode_page (page : nat) :
  urlencode (merged_parameters [] page)
  = "page=" ++ str_of_int page ++ "&per_page=20".
Proof.
  change (merged_parameters [] page)
    with [("page", VStr (str_of_int page)); ("per_page", VStr "20")].
  rewrite urlencode_items. cbn [map String.concat].
  unfold query_item. cbn [fst snd str_of_pyval].
  rewrite (quote_plus_digits (str_of_int page)) by apply str_of_int_digits.
  change (quote_plus "page") with "page".
  change (quote_plus "per_page") with "per_page".
  change (quote_plus "20") with "20".
  rewrite !append_assoc. reflexivity.
Qed.

Lemma urlencode_type_page (repository_type : str) (page : nat) :
  urlencode (merged_parameters [("type", VStr repository_type)] page)
  = "type=" ++ quote_plus repository_type ++ "&"
      ++ "page=" ++ str_of_int page ++ "&per_page=20".
Proof.
  change (merged_parameters [("type", VStr repository_type)] page)
    with [("type", VStr repository_type); ("page", VStr (str_of_int page));
          ("per_page", VStr "20")].
  rewrite urlencode_items. cbn [map String.concat].
  unfold query_item. cbn [fst snd str_of_pyval].
  rewrite (quote_plus_digits (str_of_int page)) by apply str_of_int_digits.
  change (quote_plus "type") with "type".
  change (quote_plus "page") with "page".
  change (quote_plus "per_page") with "per_page".
  change (quote_plus "20") with "20".
  rewrite !append_assoc. reflexivity.
Qed.

Section Listing.
Context `{B : Backend}.

(** The requests of [n] calls of [next] on a new generator. *)
Lemma gen_steps_page_requests (auth_token : option str) (api_path : str)
    (parameter_collection : ref) (item_processor : option ItemProcessor)
    (m : Machine) (n : nat) :
  valid_ref m parameter_collection ->
  exists reqs,
    sent (snd (gen_steps n
      (_request_paged auth_token api_path (Some parameter_collection) item_processor) m))
      = (sent m ++ reqs)%list /\
    page_requests auth_token api_path (deref (heap m) parameter_collection) 1 reqs.
Proof.
  intros Hv.
  set (g0 := _request_paged auth_token api_path (Some parameter_collection) item_processor).
  assert (Hinit : gen_inv g0 m g0 m []).
  { split; [|split; [|split]].
    - exists 1, GStart. split; [reflexivity|now split].
    - exists []. now rewrite app_nil_r.
    - now rewrite app_nil_r.
    - constructor. }
  destruct (gen_steps_inv n g0 g0 m m [] Hv Hinit) as [reqs [[_ [_ [Hs Hp]]] _]].
  exists reqs. split; [exact Hs|exact Hp].
Qed.

Lemma page_requests_urls (auth_token : option str) (api_path : str)
    (base : dict pyval) (prefix : str) (reqs : list Request) :
  (forall page,
     (API_BASE_URL ++ "/" ++ api_path) ++ "?" ++ urlencode (merged_parameters base page)
     = prefix ++ "page=" ++ str_of_int page ++ "&per_page=20") ->
  page_requests auth_token api_path base 1 reqs ->
  Forall2 (page_get prefix) reqs (seq 1 (List.length reqs)).
Proof.
  intros Hurl Hp. unfold page_requests in Hp.
  induction Hp as [|req page reqs pages Hreq _ IH]; constructor; [|exact IH].
  destruct (paged_request_url _ _ _ _ _ Hreq) as [Hm [Hd Hu]].
  repeat split; [exact Hm|exact Hd|]. now rewrite Hu, Hurl.
Qed.

(** X10. Whatever the backend answers and however many items are
    pulled, the requests of [user_repository_list] are GETs, without a
    body, of [user/repos?type=<type>&page=<k>&per_page=20] for k = 1,
    2, 3, ... in order, the type written as a query value. *)
Theorem user_repository_list_requests (auth_token : option str)
    (repository_type : str) (m : Machine) (n : nat) :
  exists reqs,
    sent (snd (gen_steps n
      (fst (user_repository_list auth_token repository_type m))
      (snd (user_repository_list auth_token repository_type m))))
      = (sent m ++ reqs)%list /\
    Forall2
      (page_get ("https://api.github.com/user/repos?type="
                   ++ quote_plus repository_type ++ "&"))
      reqs (seq 1 (List.length reqs)).
Proof.
  unfold user_repository_list, alloc. cbn [fst snd].
  set (m1 := {| heap := _; sent := sent m; world := world m |}).
  destruct (gen_steps_page_requests auth_token "user/repos" (List.length (heap m))
    None m1 n) as [reqs [Hs Hp]].
  { unfold valid_ref, m1. cbn [heap]. rewrite length_app. simpl. lia. }
  exists reqs. split; [exact Hs|].
  unfold m1 in Hp. cbn [heap] in Hp. rewrite deref_new in Hp.
  apply (page_requests_urls auth_token "user/repos"
           [("type", VStr repository_type)]); [|exact Hp].
  intros page. rewrite urlencode_type_page, !append_assoc. reflexivity.
Qed.

(** X11. The requests of [organization_repository_list] are GETs,
    without a body, of
    [orgs/<organization>/repos?type=<type>&page=<k>&per_page=20] for
    k = 1, 2, 3, ... in order, the organization name written by
    [_urlquote]. *)
Theorem organization_repository_list_requests (auth_token : option str)
    (organization_name repository_type : str) (m : Machine) (n : nat) :
  exists reqs,
    sent (snd (gen_steps n
      (fst (organization_repository_list auth_token organization_name
              repository_type m))
      (snd (organization_repository_list auth_token organization_name
              repository_type m))))
      = (sent m ++ reqs)%list /\
    Forall2
      (page_get ("https://api.github.com/orgs/" ++ _urlquote organization_name
                   ++ "/repos?type=" ++ quote_plus repository_type ++ "&"))
      reqs (seq 1 (List.length reqs)).
Proof.
  unfold organization_repository_list, alloc. cbn [fst snd].
  set (m1 := {| heap := _; sent := sent m; world := world m |}).
  destruct (gen_steps_page_requests auth_token
    ("orgs/" ++ _urlquote organization_name ++ "/repos") (List.length (heap m))
    None m1 n) as [reqs [Hs Hp]].
  { unfold valid_ref, m1. cbn [heap]. rewrite length_app. simpl. lia. }
  exists reqs. split; [exact Hs|].
  unfold m1 in Hp. cbn [heap] in Hp. rewrite deref_new in Hp.
  apply (page_requests_urls auth_token
           ("orgs/" ++ _urlquote organization_name ++ "/repos")
           [("type", VStr repository_type)]); [|exact Hp].
  intros page. rewrite urlencode_type_page, !append_assoc. reflexivity.
Qed.

(** X12. With the default mapping of [_request_paged] as the module
    made it, empty, the requests of [user_subscription_list] are GETs,
    without a body, of [user/subscriptions?page=<k>&per_page=20] for
    k = 1, 2, 3, ... in order. *)
Theorem user_subscription_list_requests (auth_token : option str)
    (m : Machine) (n : nat) :
  valid_ref m DEFAULT_PAGED_PARAMETERS ->
  deref (heap m) DEFAULT_PAGED_PARAMETERS = [] ->
  exists reqs,
    sent (snd (gen_steps n (user_subscription_list auth_token) m))
      = (sent m ++ reqs)%list /\
    Forall2 (page_get "https://api.github.com/user/subscriptions?")
      reqs (seq 1 (List.length reqs)).
Proof.
  intros Hv Hdef.
  destruct (gen_steps_page_requests auth_token "user/subscriptions"
    DEFAULT_PAGED_PARAMETERS None m n Hv) as [reqs [Hs Hp]].
  exists reqs. split; [exact Hs|].
  rewrite Hdef in Hp.
  apply (page_requests_urls auth_token "user/subscriptions" []); [|exact Hp].
  intros page. rewrite urlencode_page, !append_assoc. reflexivity.
Qed.

End Listing.

Lemma user_subscription_list_requests_witness :
  exists reqs,
    sent (snd (gen_steps 25 (user_subscription_list (Some "t"))
                 (mock_machine [Response mock_page; Response "[]"])))
      = (sent (mock_machine [Response mock_page; Response "[]"]) ++ reqs)%list /\
    Forall2 (page_get "https://api.github.com/user/subscriptions?")
      reqs (seq 1 (List.length reqs)).
Proof.
  apply (@user_subscription_list_requests MockBackend (Some "t")
           (mock_machine [Response mock_page; Response "[]"]) 25).
  - cbv. lia.
  - reflexivity.
Defined.

(** ** Pulling a paged sequence *)

Section Pulling.
Context `{B : Backend}.

Lemma prepend_nil (r : option (result (list json) * Machine)) : prepend [] r = r.
Proof. destruct r as [[[l|e] m']|]; reflexivity. Qed.

Lemma prepend_prepend (a b : list json) (r : option (result (list json) * Machine)) :
  prepend a (prepend b r) = prepend (a ++ b)%list r.
Proof. destruct r as [[[l|e] m']|]; cbn; [now rewrite app_assoc|reflexivity..]. Qed.

Lemma paged_fetch_http_error (g : PagedGen) (m : Machine) (req : Request)
    (code : Z) (body : bytes) (w' : World) :
  _request_build (g_auth_token g) (g_api_path g) None
    (merged_parameters (deref (heap m) (g_parameter_collection g)) (g_request_page g))
    = Ok req ->
  urlopen req (world m) = (HTTPError code body, w') ->
  paged_fetch g m =
    (Raise (APIRequestError code (str_of_bytes body)),
     gen_with g (g_request_page g) GDone,
     {| heap := (heap m ++ [merged_parameters (deref (heap m) (g_parameter_collection g))
                              (g_request_page g)])%list;
        sent := (sent m ++ [req])%list; world := w' |}).
Proof.
  intros Hreq Ho. unfold paged_fetch. rewrite paged_parameters_eq.
  unfold _request, request_parameters. cbn [default_arg heap].
  rewrite deref_new, Hreq. unfold _request_send. cbn [heap sent world].
  now rewrite Ho.
Qed.

(** The run of [list(gen)] over the pages the backend serves. *)
Lemma gen_collect_served (pages : list (list json)) :
  forall (g : PagedGen) (page : nat) (m : Machine) (fuel : nat)
         (last : nat -> World -> Prop),
  valid_ref m (g_parameter_collection g) ->
  Forall (fun items => items <> []) pages ->
  serves_then (g_auth_token g) (g_api_path g) (g_item_processor g)
    (deref (heap m) (g_parameter_collection g)) (S page) pages (world m) last ->
  List.length (List.concat pages) <= fuel ->
  exists m',
    gen_collect fuel (gen_with g page (GSuspended [])) m =
      prepend (List.concat pages)
        (gen_collect (fuel - List.length (List.concat pages))
           (gen_with g (List.length pages + page) (GSuspended [])) m') /\
    List.length (sent m') = List.length (sent m) + List.length pages /\
    valid_ref m' (g_parameter_collection g) /\
    deref (heap m') (g_parameter_collection g)
      = deref (heap m) (g_parameter_collection g) /\
    last (S (List.length pages + page)) (world m').
Proof.
  induction pages as [|items pages IH]; intros g page m fuel last Hv Hne Hs Hf.
  - exists m. cbn [List.concat List.length Nat.add]. rewrite Nat.sub_0_r, prepend_nil.
    repeat split; [lia|exact Hv|exact Hs].
  - cbn [serves_then] in Hs.
    destruct Hs as [req [body [response_data [w' [Hreq [Ho [Hj [Hp Hs]]]]]]]].
    inversion Hne as [|? ? Hitems Hne']; subst.
    destruct items as [|x rest]; [congruence|].
    simpl List.concat in *. simpl List.length in Hf. rewrite length_app in Hf.
    destruct fuel as [|fuel]; [lia|].
    rewrite gen_collect_step, gen_next_page_end.
    rewrite (paged_fetch_response (gen_with g (S page) (GSuspended [])) m req body
      response_data w' (x :: rest) Hreq Ho Hj Hp).
    change (g_request_page (gen_with g (S page) (GSuspended []))) with (S page).
    rewrite gen_with_with.
    assert (Hfe : exists f', fuel = List.length rest + f')
      by (exists (fuel - List.length rest); lia).
    destruct Hfe as [f' ->].
    rewrite gen_collect_suspended.
    set (m2 := {| heap := _; sent := (sent m ++ [req])%list; world := w' |}).
    assert (Hv2 : valid_ref m2 (g_parameter_collection g)).
    { unfold valid_ref, m2. cbn [heap]. rewrite length_app. unfold valid_ref in Hv. lia. }
    assert (Hd2 : deref (heap m2) (g_parameter_collection g)
                  = deref (heap m) (g_parameter_collection g)).
    { unfold m2. cbn [heap]. now apply deref_old. }
    destruct (IH g (S page) m2 f' last Hv2 Hne')
      as [m' [Hc [Hl [Hv' [Hd' Hlast]]]]].
    + rewrite Hd2. exact Hs.
    + lia.
    + exists m'. rewrite Hc, !prepend_prepend.
      cbn [List.length]. rewrite length_app.
      assert (E : S (List.length rest + f')
                    - S (List.length rest + List.length (List.concat pages))
                  = f' - List.length (List.concat pages)) by lia.
      rewrite E.
      replace (S (List.length pages) + page) with (List.length pages + S page) by lia.
      split; [reflexivity|]. split.
      { rewrite Hl. unfold m2. cbn [sent]. rewrite length_app. simpl. lia. }
      split; [exact Hv'|]. split; [congruence|exact Hlast].
Qed.

(** X13. When the backend serves pages of items and then answers the
    next page request with an HTTP error, [list(gen)] raises the API
    error of that answer, after one request per served page and one
    for the failed page: the failure of a page ends the sequence, with
    no second attempt. *)
Theorem paged_http_error_aborts (auth_token : option str) (api_path : str)
    (parameter_collection : option ref) (item_processor : option ItemProcessor)
    (m : Machine) (pages : list (list json)) (code : Z) (body : bytes) (fuel : nat) :
  valid_ref m (default_arg DEFAULT_PAGED_PARAMETERS parameter_collection) ->
  Forall (fun items => items <> []) pages ->
  serves_then auth_token api_path (default_arg default_item_processor item_processor)
    (deref (heap m) (default_arg DEFAULT_PAGED_PARAMETERS parameter_collection)) 1
    pages (world m)
    (http_error_at auth_token api_path
       (deref (heap m) (default_arg DEFAULT_PAGED_PARAMETERS parameter_collection))
       code body) ->
  List.length (List.concat pages) < fuel ->
  exists m',
    gen_collect fuel
      (_request_paged auth_token api_path parameter_collection item_processor) m
      = Some (Raise (APIRequestError code (str_of_bytes body)), m') /\
    List.length (sent m') = List.length (sent m) + List.length pages + 1.
Proof.
  intros Hv Hne Hs Hf.
  set (g := _request_paged auth_token api_path parameter_collection item_processor).
  rewrite gen_collect_start by reflexivity.
  destruct (gen_collect_served pages g 0 m fuel _ Hv Hne Hs) as
    [m' [Hc [Hl [Hv' [Hd' [req [w' [Hreq Ho]]]]]]]]; [lia|].
  rewrite Hc.
  destruct (fuel - List.length (List.concat pages)) as [|f] eqn:Hfuel; [lia|].
  rewrite gen_collect_step, gen_next_page_end.
  rewrite (paged_fetch_http_error (gen_with g (S (List.length pages + 0)) (GSuspended []))
             m' req code body w').
  - eexists. split; [reflexivity|]. cbn [sent]. rewrite length_app. simpl. lia.
  - cbn [gen_with g_auth_token g_api_path g_parameter_collection g_request_page].
    change (g_parameter_collection g)
      with (default_arg DEFAULT_PAGED_PARAMETERS parameter_collection) in Hd'.
    change (g_parameter_collection g)
      with (default_arg DEFAULT_PAGED_PARAMETERS parameter_collection).
    rewrite Hd'. exact Hreq.
  - exact Ho.
Qed.

End Pulling.

Lemma paged_http_error_aborts_witness :
  exists m',
    gen_collect 21 (@_request_paged (Some "t") "user/subscriptions" None None)
      (mock_machine [Response mock_page; HTTPError 403 "rate limit"])
      = Some (Raise (APIRequestError 403 (str_of_bytes "rate limit")), m') /\
    List.length (sent m') =
      List.length (sent (mock_machine [Response mock_page; HTTPError 403 "rate limit"]))
        + List.length [mock_items] + 1.
Proof.
  apply (@paged_http_error_aborts MockBackend (Some "t") "user/subscriptions" None None
           (mock_machine [Response mock_page; HTTPError 403 "rate limit"])
           [mock_items] 403 "rate limit" 21).
  - cbv. lia.
  - repeat constructor. discriminate.
  - simpl. do 4 eexists. repeat split; try reflexivity.
    do 2 eexists. split; reflexivity.
  - simpl. lia.
Defined.

(** ** Pulling item by item *)

Section Laziness.
Context `{B : Backend}.

Lemma gen_steps_suspended (rest : list json) (g : PagedGen) (page : nat)
    (m : Machine) (n : nat) :
  gen_steps (List.length rest + n) (gen_with g page (GSuspended rest)) m =
  gen_steps n (gen_with g page (GSuspended [])) m.
Proof.
  induction rest as [|x rest IH]; [reflexivity|].
  cbn [List.length Nat.add gen_steps gen_next g_state gen_with g_request_page].
  exact IH.
Qed.

(** Pulling the items of the pages the backend serves, one by one. *)
Lemma gen_steps_served (pages : list (list json)) :
  forall (g : PagedGen) (page : nat) (m : Machine),
  valid_ref m (g_parameter_collection g) ->
  Forall (fun items => items <> []) pages ->
  serves (g_auth_token g) (g_api_path g) (g_item_processor g)
    (deref (heap m) (g_parameter_collection g)) (S page) pages (world m) ->
  exists m',
    gen_steps (List.length (List.concat pages)) (gen_with g page (GSuspended [])) m
      = (gen_with g (List.length pages + page) (GSuspended []), m') /\
    List.length (sent m') = List.length (sent m) + List.length pages.
Proof.
  induction pages as [|items pages IH]; intros g page m Hv Hne Hs.
  - exists m. split; [reflexivity|cbn; lia].
  - cbn [serves] in Hs.
    destruct Hs as [req [body [response_data [w' [Hreq [Ho [Hj [Hp Hs]]]]]]]].
    inversion Hne as [|? ? Hitems Hne']; subst.
    destruct items as [|x rest]; [congruence|].
    simpl List.concat. cbn [List.length]. rewrite length_app. cbn [gen_steps].
    rewrite gen_next_page_end.
    rewrite (paged_fetch_response (gen_with g (S page) (GSuspended [])) m req body
      response_data w' (x :: rest) Hreq Ho Hj Hp).
    change (g_request_page (gen_with g (S page) (GSuspended []))) with (S page).
    rewrite gen_with_with, gen_steps_suspended.
    set (m2 := {| heap := _; sent := (sent m ++ [req])%list; world := w' |}).
    destruct (IH g (S page) m2) as [m' [Hc Hl]].
    + unfold valid_ref, m2. cbn [heap]. rewrite length_app. unfold valid_ref in Hv. lia.
    + exact Hne'.
    + unfold m2. cbn [heap world]. rewrite deref_old by exact Hv. exact Hs.
    + exists m'. rewrite Hc.
      replace (S (List.length pages) + page) with (List.length pages + S page) by lia.
      split; [reflexivity|].
      rewrite Hl. unfold m2. cbn [sent]. rewrite length_app. simpl. lia.
Qed.

Lemma gen_steps_start (g : PagedGen) (m : Machine) (n : nat) :
  g_state g = GStart -> g_request_page g = 1 ->
  snd (gen_steps n g m) = snd (gen_steps n (gen_with g 0 (GSuspended [])) m).
Proof.
  intros Hst Hpage. destruct n as [|n]; [reflexivity|].
  destruct g as [a p c ip page st]. cbn in Hst, Hpage. subst. reflexivity.
Qed.

(** X14. The sequence fetches no page ahead: when the backend serves
    pages of items, pulling exactly the items of these pages has cost
    one request per page, and the request for the page after them is
    not made until a further item is asked for. *)
Theorem paged_no_prefetch (auth_token : option str) (api_path : str)
    (parameter_collection : option ref) (item_processor : option ItemProcessor)
    (m : Machine) (pages : list (list json)) :
  valid_ref m (default_arg DEFAULT_PAGED_PARAMETERS parameter_collection) ->
  Forall (fun items => items <> []) pages ->
  serves auth_token api_path (default_arg default_item_processor item_processor)
    (deref (heap m) (default_arg DEFAULT_PAGED_PARAMETERS parameter_collection)) 1
    pages (world m) ->
  List.length (sent (snd (gen_steps (List.length (List.concat pages))
    (_request_paged auth_token api_path parameter_collection item_processor) m)))
  = List.length (sent m) + List.length pages.
Proof.
  intros Hv Hne Hs.
  set (g := _request_paged auth_token api_path parameter_collection item_processor).
  rewrite gen_steps_start by reflexivity.
  destruct (gen_steps_served pages g 0 m Hv Hne Hs) as [m' [Hc Hl]].
  rewrite Hc. exact Hl.
Qed.

Lemma gen_steps_done (n : nat) (g : PagedGen) (m : Machine) :
  g_state g = GDone -> gen_steps n g m = (g, m).
Proof.
  intros Hd. induction n as [|n IH]; [reflexivity|].
  cbn [gen_steps]. unfold gen_next. rewrite Hd. exact IH.
Qed.

Lemma gen_next_over (g : PagedGen) (m : Machine) :
  (forall x, fst (fst (gen_next g m)) <> Ok (Some x)) ->
  g_state (snd (fst (gen_next g m))) = GDone.
Proof.
  unfold gen_next. destruct (g_state g) as [|[|x rest]|] eqn:Hst.
  - unfold paged_fetch. destruct (paged_parameters g m) as [p m1].
    destruct (_request _ _ _ _ m1) as [[response_data|e] m2]; [|reflexivity].
    destruct (g_item_processor g response_data) as [[|x rest]|e]; try reflexivity.
    intros H. exfalso. now apply (H x).
  - unfold paged_fetch. destruct (paged_parameters _ m) as [p m1].
    destruct (_request _ _ _ _ m1) as [[response_data|e] m2]; [|reflexivity].
    destruct (g_item_processor _ response_data) as [[|x rest]|e]; try reflexivity.
    intros H. exfalso. now apply (H x).
  - intros H. exfalso. now apply (H x).
  - intros _. exact Hst.
Qed.

(** X15. Once [next] has raised, or has signalled the end of the
    sequence, the generator is over: any number of further calls makes
    no request and changes nothing. *)
Theorem paged_over_stays_over (g : PagedGen) (m : Machine) (n : nat) :
  (forall x, fst (fst (gen_next g m)) <> Ok (Some x)) ->
  gen_steps n (snd (fst (gen_next g m))) (snd (gen_next g m))
    = (snd (fst (gen_next g m)), snd (gen_next g m)).
Proof. intros H. apply gen_steps_done. now apply gen_next_over. Qed.

Lemma deref_list_update (h : list (dict pyval)) (r : ref) (f : dict pyval -> dict pyval) :
  r < List.length h -> deref (list_update h r f) r = f (deref h r).
Proof.
  revert r. induction h as [|d h IH]; intros r Hr; [simpl in Hr; lia|].
  destruct r as [|r]; [reflexivity|]. simpl in Hr.
  apply (IH r). lia.
Qed.

(** X16. The base mapping is read when a page is fetched, not when the
    sequence is made: a key set in the caller's mapping after the call
    of [_request_paged] and before the first item is pulled is part of
    the first request. *)
Theorem paged_base_read_when_pulled (auth_token : option str) (api_path : str)
    (parameter_collection : ref) (item_processor : option ItemProcessor)
    (m : Machine) (key : str) (value : pyval) :
  valid_ref m parameter_collection ->
  exists req,
    _request_build auth_token api_path None
      (merged_parameters (dict_set (deref (heap m) parameter_collection) key value) 1)
      = Ok req /\
    sent (snd (gen_next
      (_request_paged auth_token api_path (Some parameter_collection) item_processor)
      (setitem parameter_collection key value m)))
    = (sent m ++ [req])%list.
Proof.
  intros Hv.
  set (g := _request_paged auth_token api_path (Some parameter_collection) item_processor).
  destruct (paged_fetch_spec g (setitem parameter_collection key value m))
    as [req [r [g' [w' [Hreq [Hf _]]]]]].
  exists req. split.
  - unfold setitem in Hreq. cbn [heap] in Hreq.
    change (g_parameter_collection g) with parameter_collection in Hreq.
    rewrite deref_list_update in Hreq by exact Hv. exact Hreq.
  - change (gen_next g (setitem parameter_collection key value m))
      with (paged_fetch g (setitem parameter_collection key value m)).
    rewrite Hf. reflexivity.
Qed.

End Laziness.

Lemma paged_no_prefetch_witness :
  List.length (sent (snd (gen_steps (List.length (List.concat [mock_items]))
    (@_request_paged (Some "t") "user/subscriptions" None None)
    (mock_machine [Response mock_page; Response mock_page]))))
  = List.length (sent (mock_machine [Response mock_page; Response mock_page]))
      + List.length [mock_items].
Proof.
  apply (@paged_no_prefetch MockBackend (Some "t") "user/subscriptions" None None
           (mock_machine [Response mock_page; Response mock_page]) [mock_items]).
  - cbv. lia.
  - repeat constructor. discriminate.
  - simpl. do 4 eexists. repeat split; reflexivity.
Defined.

Lemma paged_over_stays_over_witness :
  gen_steps 5
    (snd (fst (gen_next (@_request_paged (Some "t") "user/subscriptions" None None)
                 (mock_machine [Response "[]"; Response mock_page]))))
    (snd (gen_next (@_request_paged (Some "t") "user/subscriptions" None None)
            (mock_machine [Response "[]"; Response mock_page])))
  = (snd (fst (gen_next (@_request_paged (Some "t") "user/subscriptions" None None)
                 (mock_machine [Response "[]"; Response mock_page]))),
     snd (gen_next (@_request_paged (Some "t") "user/subscriptions" None None)
            (mock_machine [Response "[]"; Response mock_page]))).
Proof.
  apply (@paged_over_stays_over MockBackend
           (@_request_paged (Some "t") "user/subscriptions" None None)
           (mock_machine [Response "[]"; Response mock_page]) 5).
  intros x. discriminate.
Defined.

Lemma paged_base_read_when_pulled_witness :
  exists req,
    @_request_build (Some "t") "user/repos" None
      (merged_parameters
         (dict_set (deref (heap mock_patch_machine) 2) "type" (VStr "all")) 1)
      = Ok req /\
    sent (snd (gen_next (@_request_paged (Some "t") "user/repos" (Some 2) None)
                 (setitem 2 "type" (VStr "all") mock_patch_machine)))
    = (sent mock_patch_machine ++ [req])%list.
Proof.
  apply (@paged_base_read_when_pulled MockBackend (Some "t") "user/repos" 2 None
           mock_patch_machine "type" (VStr "all")).
  cbv. lia.
Defined.

(** ** The single-request endpoints *)

Section SingleRequests.
Context `{B : Backend}.

Lemma with_property_truthy (param : option pyval) (key : str) (d : dict pyval) :
  dict_truthy d = true -> dict_truthy (with_property param key d) = true.
Proof.
  destruct param as [v|]; [intros _; apply dict_set_truthy|auto].
Qed.

(** X17. [update_repository_properties] makes one request, to
    [repos/<owner>/<repository>], always with the JSON content type
    since the mapping always holds [name]; the mapping it builds is a
    new object, and every dictionary that was in the store before the
    call has the same value after it. *)
Theorem update_repository_target (auth_token : option str)
    (owner repository : str)
    (default_branch description homepage issues private projects wiki : option pyval)
    (m : Machine) :
  exists req,
    sent (snd (update_repository_properties auth_token owner repository
                 default_branch description homepage issues private projects wiki m))
      = (sent m ++ [req])%list /\
    req_url req = "https://api.github.com/repos/" ++ _urlquote owner ++ "/"
                    ++ _urlquote repository /\
    dict_get (req_headers req) "Content-Type" = Some "application/json" /\
    (forall r, valid_ref m r ->
       deref (heap (snd (update_repository_properties auth_token owner repository
                 default_branch description homepage issues private projects wiki m))) r
       = deref (heap m) r).
Proof.
  unfold update_repository_properties, alloc. cbv zeta.
  set (m0 := {| heap := _; sent := sent m; world := world m |}).
  assert (H0 : heap m0 = (heap m ++ [[("name", VStr repository)]])%list) by reflexivity.
  assert (S0 : sent m0 = sent m) by reflexivity.
  destruct (add_property_new m0 _ _ default_branch "default_branch" H0) as [H1 [S1 _]].
  destruct (add_property_new _ _ _ description "description" H1) as [H2 [S2 _]].
  destruct (add_property_new _ _ _ homepage "homepage" H2) as [H3 [S3 _]].
  destruct (add_property_new _ _ _ issues "has_issues" H3) as [H4 [S4 _]].
  destruct (add_property_new _ _ _ private "private" H4) as [H5 [S5 _]].
  destruct (add_property_new _ _ _ projects "has_projects" H5) as [H6 [S6 _]].
  destruct (add_property_new _ _ _ wiki "has_wiki" H6) as [H7 [S7 _]].
  set (m7 := add_property _ wiki "has_wiki" _) in *.
  set (final := with_property wiki "has_wiki" _) in H7.
  assert (Ht : dict_truthy final = true).
  { unfold final. repeat apply with_property_truthy. reflexivity. }
  set (path := "repos/" ++ _urlquote owner ++ "/" ++ _urlquote repository).
  destruct (_request_sends auth_token path (Some "PATCH")
    (Some (List.length (heap m))) m7) as [req [Hb [_ [Hs Hh]]]].
  unfold request_parameters in Hb. cbn [default_arg] in Hb.
  rewrite H7, deref_new in Hb.
  destruct (_request_build_body auth_token path "PATCH" final)
    as [req' [Hb' [_ [Hu [_ Hc]]]]].
  assert (Hreq : Ok req' = Ok req) by (rewrite <- Hb'; exact Hb).
  injection Hreq as ->. rewrite Ht in Hc.
  exists req. split; [etransitivity; [exact Hs|]; f_equal; congruence|].
  split; [rewrite Hu; reflexivity|].
  split; [exact Hc|].
  intros r Hr. etransitivity; [apply (f_equal (fun h => deref h r) Hh)|].
  rewrite H7. now apply deref_old.
Qed.

(** X18. [repository_subscription] and
    [set_user_repository_subscription] address the same URL,
    [repos/<owner>/<repository>/subscription]: the first with a GET
    that has no body and no query string, the second with a PUT.  The
    default mapping of [_request] is taken as the module made it,
    empty. *)
Theorem subscription_same_url (auth_token : option str) (owner repository : str)
    (subscribed ignored : option bool) (m m' : Machine) :
  deref (heap m) DEFAULT_REQUEST_PARAMETERS = [] ->
  exists get put,
    sent (snd (repository_subscription auth_token owner repository m))
      = (sent m ++ [get])%list /\
    sent (snd (set_user_repository_subscription auth_token owner repository
                 subscribed ignored m'))
      = (sent m' ++ [put])%list /\
    req_url get = "https://api.github.com/repos/" ++ _urlquote owner ++ "/"
                    ++ _urlquote repository ++ "/subscription" /\
    req_url put = req_url get /\
    req_method get = None /\ req_data get = None /\
    req_method put = Some "PUT".
Proof.
  intros Hdef.
  set (path := "repos/" ++ _urlquote owner ++ "/" ++ _urlquote repository
                 ++ "/subscription").
  destruct (_request_sends auth_token path None None m) as [get [Hb [_ [Hs _]]]].
  destruct (_request_build_get auth_token path (request_parameters None m))
    as [get' [Hb' [Hd [Hm Hu]]]].
  rewrite Hb in Hb'. injection Hb' as <-.
  unfold request_parameters in Hu. cbn [default_arg] in Hu. rewrite Hdef in Hu.
  cbn [dict_truthy] in Hu.
  unfold set_user_repository_subscription, alloc. cbv zeta.
  set (m1 := {| heap := _; sent := sent m'; world := world m' |}).
  assert (H1 : heap m1 = (heap m' ++
    [[("subscribed", VBool (default_arg false subscribed));
      ("ignored", VBool (default_arg false ignored))]])%list) by reflexivity.
  destruct (_request_fresh_body auth_token path "PUT" m1 _ _ _ H1)
    as [put [Hs' [Hm' [Hu' _]]]].
  exists get, put. split; [exact Hs|]. split; [exact Hs'|].
  split; [rewrite Hu; reflexivity|].
  split; [congruence|]. auto.
Qed.

End SingleRequests.

Lemma subscription_same_url_witness :
  exists get put,
    sent (snd (@repository_subscription MockBackend (Some "t") "o" "r"
                 (mock_machine [Response "[]"])))
      = (sent (mock_machine [Response "[]"]) ++ [get])%list /\
    sent (snd (@set_user_repository_subscription MockBackend (Some "t") "o" "r"
                 (Some true) None (mock_machine [Response "[]"])))
      = (sent (mock_machine [Response "[]"]) ++ [put])%list /\
    req_url get = "https://api.github.com/repos/" ++ _urlquote "o" ++ "/"
                    ++ _urlquote "r" ++ "/subscription" /\
    req_url put = req_url get /\
    req_method get = None /\ req_data get = None /\
    req_method put = Some "PUT".
Proof.
  apply (@subscription_same_url MockBackend (Some "t") "o" "r" (Some true) None
           (mock_machine [Response "[]"]) (mock_machine [Response "[]"])).
  reflexivity.
Defined.

(** ** The query string and the error text *)

Lemma plus_quoter_written (b : ascii) :
  str_forall written_by_urlencode (plus_quoter b) = true /\
  is_ascii (plus_quoter b) = true.
Proof. each_char b; split; reflexivity. Qed.

Lemma quote_plus_written (s : str) :
  str_forall written_by_urlencode (quote_plus s) = true /\
  is_ascii (quote_plus s) = true.
Proof.
  rewrite quote_plus_bytes. induction (utf8 s) as [|b bs [IH1 IH2]]; [now split|].
  simpl str_flat_map. rewrite str_forall_app, is_ascii_app, IH1, IH2.
  destruct (plus_quoter_written b) as [-> ->]. now split.
Qed.

Lemma query_item_written (kv : str * pyval) :
  str_forall written_by_urlencode (query_item kv) = true /\
  is_ascii (query_item kv) = true.
Proof.
  unfold query_item. rewrite !str_forall_app, !is_ascii_app.
  destruct (quote_plus_written (fst kv)) as [-> ->].
  destruct (quote_plus_written (str_of_pyval (snd kv))) as [-> ->].
  now split.
Qed.

(** X19. The query string [urlencode] writes for a mapping is made of
    letters, digits, the marks [_.-~] and the characters [%+=&] only,
    whatever the keys and the values: no space, no [?], no [#], no
    non-ASCII character reaches the URL of a GET. *)
Theorem urlencode_alphabet (d : dict pyval) :
  str_forall written_by_urlencode (urlencode d) = true /\
  is_ascii (urlencode d) = true.
Proof.
  rewrite urlencode_items. induction d as [|kv d [IH1 IH2]]; [now split|].
  cbn [map String.concat]. destruct (query_item_written kv) as [H1 H2].
  destruct (map query_item d) as [|item items] eqn:E; [now split|].
  rewrite !str_forall_app, !is_ascii_app, H1, H2, IH1, IH2. now split.
Qed.

Lemma unrepr_byte (q c : ascii) (tail : string) :
  q = "'"%char \/ q = dquote ->
  unrepr_body q (repr_byte q c ++ tail) = option_map (String c) (unrepr_body q tail).
Proof. intros [->| ->]; each_char c; reflexivity. Qed.

Lemma unrepr_bytes (q : ascii) (b : bytes) :
  q = "'"%char \/ q = dquote ->
  unrepr_body q (str_flat_map (repr_byte q) b ++ String q EmptyString) = Some b.
Proof.
  intros Hq. induction b as [|c b IH].
  - simpl. now rewrite Ascii.eqb_refl.
  - simpl str_flat_map. rewrite append_assoc, unrepr_byte, IH by auto. reflexivity.
Qed.

Lemma repr_quote_cases (b : bytes) : repr_quote b = "'"%char \/ repr_quote b = dquote.
Proof.
  unfold repr_quote. destruct (str_mem "'" b && negb (str_mem dquote b))%bool; auto.
Qed.

(** The body bytes can be read back from [str] of them. *)
Lemma bytes_of_repr_str (b : bytes) : bytes_of_repr (str_of_bytes b) = Some b.
Proof.
  unfold str_of_bytes, bytes_of_repr.
  destruct (repr_quote_cases b) as [Hq|Hq]; rewrite Hq; cbn [Ascii.eqb];
    change (Ascii.eqb "b" "b") with true; cbn [andb orb];
    [change (Ascii.eqb "'" "'") with true | change (Ascii.eqb dquote dquote) with true];
    cbn [orb]; try rewrite orb_true_r; apply unrepr_bytes; auto.
Qed.

Section ErrorText.
Context `{B : Backend}.

(** X20. The API error loses nothing of the answer: when [_request]
    raises it, the [http_code] field is the status code of the HTTP
    error of the transport, and the body bytes of that error can be
    read back from the [response] field. *)
Theorem api_error_recovers_body (auth_token : option str) (api_path : str)
    (method : option str) (parameter_collection : option ref) (m : Machine)
    (http_code : Z) (response : str) :
  fst (_request auth_token api_path method parameter_collection m)
    = Raise (APIRequestError http_code response) ->
  exists req body w',
    _request_build auth_token api_path method
      (request_parameters parameter_collection m) = Ok req /\
    urlopen req (world m) = (HTTPError http_code body, w') /\
    bytes_of_repr response = Some body.
Proof.
  destruct (_request_sends auth_token api_path method parameter_collection m)
    as [req [Hb [Hr _]]].
  rewrite Hr. unfold _request_send.
  destruct (urlopen req (world m)) as [[body|code body|name] w'] eqn:Ho.
  - destruct (json_load body); discriminate.
  - cbn. intros H. injection H as <- <-. exists req, body, w'.
    split; [exact Hb|]. split; [exact Ho|apply bytes_of_repr_str].
  - discriminate.
Qed.

End ErrorText.

Lemma api_error_recovers_body_witness :
  exists req body w',
    @_request_build (Some "t") "repos/o/r/subscription" None
      (@request_parameters MockBackend None
         (mock_machine [HTTPError 404 "Not Found"])) = Ok req /\
    @urlopen MockBackend req (world (mock_machine [HTTPError 404 "Not Found"]))
      = (HTTPError 404 body, w') /\
    bytes_of_repr "b'Not Found'" = Some body.
Proof.
  apply (@api_error_recovers_body MockBackend (Some "t") "repos/o/r/subscription"
           None None (mock_machine [HTTPError 404 "Not Found"]) 404 "b'Not Found'").
  reflexivity.
Defined.
